(** * Replication of container images between registries

    A shallow embedding of [cloud/sw_deployment/docker_management.py]
    (class [DockerManagement]) and the properties of its replication
    workflow: source registry normalisation, cloud credential set-up,
    and the pull / tag / push sequence run for every configured image.

    Python objects are modelled as follows.
    - [str] and [bytes] are [string]; a value that may be [None] is an
      [option].
    - The instance ([self]) is the record [obj]; an attribute that was never
      assigned is [None] in a field documented as such.
    - Every call that leaves the process (container runtime, cloud APIs,
      files, sub-processes, terminal output) appends an [event] to a log, and
      its answer is read from a [world]: a deterministic oracle that may
      depend on everything that happened before (the log so far).
    - A method is a function from a state (instance and log) to a new state
      and either a value or a raised exception. *)

From Stdlib Require Import String Ascii List Bool Arith Lia.
Import ListNotations.

Local Open Scope list_scope.
Local Open Scope string_scope.

(** ** Python string operations used by the class *)

Module PyStr.

(** [s.startswith(p)] *)
Fixpoint startswith (p s : string) : bool :=
  match p with
  | EmptyString => true
  | String a p' =>
      match s with
      | EmptyString => false
      | String b s' => Ascii.eqb a b && startswith p' s'
      end
  end.

(** The scan of [str.replace(old, new)] for a non-empty [old]: left to
    right, an occurrence found at the current position is replaced and the
    scan resumes after it ([skip] counts the characters of the occurrence
    still to be passed over). *)
Fixpoint replace_from (old new : string) (skip : nat) (s : string) : string :=
  match s with
  | EmptyString => EmptyString
  | String c rest =>
      match skip with
      | S k => replace_from old new k rest
      | O =>
          if startswith old s
          then new ++ replace_from old new (Nat.pred (String.length old)) rest
          else String c (replace_from old new 0 rest)
      end
  end.

(** With an empty [old], Python inserts [new] before every character and
    at the end. *)
Fixpoint interleave (new s : string) : string :=
  match s with
  | EmptyString => EmptyString
  | String c rest => String c (new ++ interleave new rest)
  end.

(** [s.replace(old, new)] *)
Definition replace (old new s : string) : string :=
  match old with
  | EmptyString => new ++ interleave new s
  | String _ _ => replace_from old new 0 s
  end.

(** [old in s] *)
Fixpoint contains (old s : string) : bool :=
  match s with
  | EmptyString => startswith old EmptyString
  | String _ rest => startswith old s || contains old rest
  end.

(** [s.split(sep)] for a one-character separator: never empty, the first
    piece is what precedes the first separator. *)
Fixpoint split (sep : ascii) (s : string) : string * list string :=
  match s with
  | EmptyString => (EmptyString, [])
  | String c rest =>
      let (hd, tl) := split sep rest in
      if Ascii.eqb c sep then (EmptyString, hd :: tl)
      else (String c hd, tl)
  end.

Definition split_list (sep : ascii) (s : string) : list string :=
  let (hd, tl) := split sep s in hd :: tl.

(** Character-wise image of a string. *)
Fixpoint map (f : ascii -> ascii) (s : string) : string :=
  match s with
  | EmptyString => EmptyString
  | String c rest => String (f c) (map f rest)
  end.

End PyStr.

(** ** Values, exceptions and the outside world *)

(** The exceptions that the class can see.  [ParsingError] is
    [configparser.ParsingError] (and its subclasses); an exception raised
    inside a library or by a remote service is an [ExternalError]. *)
Inductive exn : Type :=
| AttributeError (attribute : string)
| TypeError (message : string)
| KeyError (key : string)
| ParsingError (message : string)
| ExternalError (what : string).

Inductive result (A : Type) : Type :=
| Ok (a : A)
| Raise (e : exn).
Arguments Ok {A} a.
Arguments Raise {A} e.

(** A local image object of the container runtime, known by its id. *)
Definition image : Type := string.

(** The dict [{'repository': ..., 'tag': ...}] returned by [tag_image]. *)
Record image_ref : Type := { repository : string; tag : string }.

(** The parsed credentials file: sections of key/value pairs. *)
Definition config : Type := list (string * list (string * string)).

(** What is handed to [click.echo] / [click.secho]. *)
Inductive printed : Type :=
| PText (s : string)
| PImages (names : list string)
| PImage (img : image)
| PLog (push_log : string)
| PError (message : string).

(** The calls that leave the process, with their arguments. *)
Inductive event : Type :=
| Echo (p : printed)
| Secho (p : printed) (fg : string)
| Login (username password : option string) (registry : string)
| Pull (reference : string)
| Get (reference : string)
| Tag (img : image) (repo tg : string)
| Push (repo tg : string) (auth_config : option (string * string))
| ReadConfig (path : string)
| EcrToken (key_id secret_key : option string) (region : string)
| Subprocess (argv : list string)
| FromEnv.

(** The answers of the libraries and services the class talks to.  A stateful
    service receives the log of everything that happened before the call. *)
Record world : Type := {
  (* docker.from_env() *)
  docker_from_env : list event -> result unit;
  (* validators.url *)
  validators_url : string -> bool;
  (* Path.home() *)
  home : string;
  (* RawConfigParser.read of a path *)
  config_read : list event -> string -> result config;
  (* boto3 session, ECR client and
     get_authorization_token()['authorizationData'][0], a dict *)
  ecr_authorization_data :
    list event -> option string -> option string -> string
    -> result (list (string * string));
  (* base64.b64decode and bytes.decode('utf-8') *)
  b64decode : string -> result string;
  utf8_decode : string -> result string;
  (* subprocess.run(argv, stdout=PIPE).stdout *)
  subprocess_stdout : list event -> list string -> result string;
  (* json.loads(text)["accessToken"] *)
  json_access_token : string -> result string;
  (* docker client *)
  docker_login :
    list event -> option string -> option string -> string -> result unit;
  images_pull : list event -> string -> result image;
  images_get : list event -> string -> result image;
  image_tag : list event -> image -> string -> string -> result bool;
  images_push :
    list event -> string -> string -> option (string * string) -> result string
}.

(** ** The instance *)

(** The attributes of a [DockerManagement] object.  [from_registry] is [None]
    as long as the attribute has not been assigned; the other options are
    Python values that may be [None]. *)
Record obj : Type := {
  cloud : option string;
  aws_region : string;
  aws_access_key_id : option string;
  aws_access_secret_key : option string;
  cr_password : option string;
  cr_username : option string;
  cr_url : option string;
  show_log : bool;
  to_registry : string;
  images_to_replicate : list string;
  tagged_images : list (option image_ref);
  from_registry : option string
}.

Definition set_aws_access_key_id (v : option string) (o : obj) : obj :=
  {| cloud := cloud o; aws_region := aws_region o;
     aws_access_key_id := v;
     aws_access_secret_key := aws_access_secret_key o;
     cr_password := cr_password o; cr_username := cr_username o;
     cr_url := cr_url o; show_log := show_log o;
     to_registry := to_registry o;
     images_to_replicate := images_to_replicate o;
     tagged_images := tagged_images o; from_registry := from_registry o |}.

Definition set_aws_access_secret_key (v : option string) (o : obj) : obj :=
  {| cloud := cloud o; aws_region := aws_region o;
     aws_access_key_id := aws_access_key_id o;
     aws_access_secret_key := v;
     cr_password := cr_password o; cr_username := cr_username o;
     cr_url := cr_url o; show_log := show_log o;
     to_registry := to_registry o;
     images_to_replicate := images_to_replicate o;
     tagged_images := tagged_images o; from_registry := from_registry o |}.

Definition set_cr_password (v : option string) (o : obj) : obj :=
  {| cloud := cloud o; aws_region := aws_region o;
     aws_access_key_id := aws_access_key_id o;
     aws_access_secret_key := aws_access_secret_key o;
     cr_password := v; cr_username := cr_username o;
     cr_url := cr_url o; show_log := show_log o;
     to_registry := to_registry o;
     images_to_replicate := images_to_replicate o;
     tagged_images := tagged_images o; from_registry := from_registry o |}.

Definition set_cr_username (v : option string) (o : obj) : obj :=
  {| cloud := cloud o; aws_region := aws_region o;
     aws_access_key_id := aws_access_key_id o;
     aws_access_secret_key := aws_access_secret_key o;
     cr_password := cr_password o; cr_username := v;
     cr_url := cr_url o; show_log := show_log o;
     to_registry := to_registry o;
     images_to_replicate := images_to_replicate o;
     tagged_images := tagged_images o; from_registry := from_registry o |}.

Definition set_cr_url (v : option string) (o : obj) : obj :=
  {| cloud := cloud o; aws_region := aws_region o;
     aws_access_key_id := aws_access_key_id o;
     aws_access_secret_key := aws_access_secret_key o;
     cr_password := cr_password o; cr_username := cr_username o;
     cr_url := v; show_log := show_log o;
     to_registry := to_registry o;
     images_to_replicate := images_to_replicate o;
     tagged_images := tagged_images o; from_registry := from_registry o |}.

Definition set_images_to_replicate (v : list string) (o : obj) : obj :=
  {| cloud := cloud o; aws_region := aws_region o;
     aws_access_key_id := aws_access_key_id o;
     aws_access_secret_key := aws_access_secret_key o;
     cr_password := cr_password o; cr_username := cr_username o;
     cr_url := cr_url o; show_log := show_log o;
     to_registry := to_registry o;
     images_to_replicate := v;
     tagged_images := tagged_images o; from_registry := from_registry o |}.

Definition set_tagged_images (v : list (option image_ref)) (o : obj) : obj :=
  {| cloud := cloud o; aws_region := aws_region o;
     aws_access_key_id := aws_access_key_id o;
     aws_access_secret_key := aws_access_secret_key o;
     cr_password := cr_password o; cr_username := cr_username o;
     cr_url := cr_url o; show_log := show_log o;
     to_registry := to_registry o;
     images_to_replicate := images_to_replicate o;
     tagged_images := v; from_registry := from_registry o |}.

Definition set_from_registry (v : option string) (o : obj) : obj :=
  {| cloud := cloud o; aws_region := aws_region o;
     aws_access_key_id := aws_access_key_id o;
     aws_access_secret_key := aws_access_secret_key o;
     cr_password := cr_password o; cr_username := cr_username o;
     cr_url := cr_url o; show_log := show_log o;
     to_registry := to_registry o;
     images_to_replicate := images_to_replicate o;
     tagged_images := tagged_images o; from_registry := v |}.

(** ** Methods as state transformers that may raise *)

Record state : Type := { self : obj; log : list event }.

Definition M (A : Type) : Type := state -> state * result A.

Definition ret {A} (a : A) : M A := fun st => (st, Ok a).

Definition raise {A} (e : exn) : M A := fun st => (st, Raise e).

Definition bind {A B} (m : M A) (k : A -> M B) : M B :=
  fun st =>
    match m st with
    | (st', Ok a) => k a st'
    | (st', Raise e) => (st', Raise e)
    end.

Declare Scope py_scope.
Delimit Scope py_scope with py.
Notation "x <- m ;; k" := (bind m (fun x => k))
  (at level 61, m at next level, right associativity) : py_scope.
Notation "m ;; k" := (bind m (fun _ => k))
  (at level 61, right associativity) : py_scope.
Local Open Scope py_scope.

(** Reading and updating [self]. *)
Definition this : M obj := fun st => (st, Ok (self st)).

Definition assign (f : obj -> obj) : M unit :=
  fun st => ({| self := f (self st); log := log st |}, Ok tt).

(** A pure library function that may raise. *)
Definition lift {A} (r : result A) : M A := fun st => (st, r).

(** A call that leaves the process: it is logged with its arguments, and the
    world answers from what it has seen so far. *)
Definition external {A} (e : event) (answer : list event -> result A) : M A :=
  fun st => ({| self := self st; log := (log st ++ [e])%list |}, answer (log st)).

Definition echo (p : printed) : M unit := external (Echo p) (fun _ => Ok tt).

Definition secho (p : printed) (fg : string) : M unit :=
  external (Secho p fg) (fun _ => Ok tt).

(** [try: body except configparser.ParsingError as e: handler(e)] *)
Definition try_except_ParsingError (body : M unit) (handler : string -> M unit)
  : M unit :=
  fun st =>
    match body st with
    | (st', Raise (ParsingError message)) => handler message st'
    | other => other
    end.

(** [d[key]] on a dict given as an association list. *)
Fixpoint getitem {V} (d : list (string * V)) (key : string) : result V :=
  match d with
  | [] => Raise (KeyError key)
  | (k, v) :: rest => if String.eqb k key then Ok v else getitem rest key
  end.

(** [x is None] *)
Definition is_None {A} (x : option A) : bool :=
  match x with None => true | Some _ => false end.

(** [os.path.join(a, b)] on a POSIX system. *)
Fixpoint ends_with_slash (s : string) : bool :=
  match s with
  | EmptyString => false
  | String c EmptyString => Ascii.eqb c "/"
  | String _ rest => ends_with_slash rest
  end.

Definition path_join (a b : string) : string :=
  if PyStr.startswith "/" b then b
  else if (String.eqb a "" || ends_with_slash a)%bool then a ++ b
  else a ++ "/" ++ b.

(** ** The class [DockerManagement] *)

Module DockerManagement.
Section Methods.

Variable w : world.

(** [self.cloud == name] *)
Definition cloud_is (name : string) (o : obj) : bool :=
  match cloud o with
  | Some c => String.eqb c name
  | None => false
  end.

(** Reading [self.from_registry], an attribute that may not exist yet. *)
Definition get_from_registry : M string :=
  o <- this ;;
  match from_registry o with
  | Some r => ret r
  | None => raise (AttributeError "from_registry")
  end.

(** The [try] block of [initialize_ecr] with its handler: the access keys
    are read from the [default] section of the credentials file. *)
Definition read_aws_credentials : M unit :=
  let aws_credentials := path_join (path_join (home w) ".aws") "credentials" in
  try_except_ParsingError
    (cfg <- external (ReadConfig aws_credentials)
              (fun h => config_read w h aws_credentials) ;;
     credentials <- lift (getitem cfg "default") ;;
     key_id <- lift (getitem credentials "aws_access_key_id") ;;
     assign (set_aws_access_key_id (Some key_id)) ;;
     secret <- lift (getitem credentials "aws_secret_access_key") ;;
     assign (set_aws_access_secret_key (Some secret)))
    (fun parser_error => secho (PError parser_error) "red").

Definition initialize_ecr : M unit :=
  read_aws_credentials ;;
  o <- this ;;
  ecr_credentials <-
    external
      (EcrToken (aws_access_key_id o) (aws_access_secret_key o) (aws_region o))
      (fun h => ecr_authorization_data w h (aws_access_key_id o)
                  (aws_access_secret_key o) (aws_region o)) ;;
  assign (set_cr_username (Some "AWS")) ;;
  token <- lift (getitem ecr_credentials "authorizationToken") ;;
  decoded <- lift (b64decode w token) ;;
  password <- lift (utf8_decode w (PyStr.replace "AWS:" "" decoded)) ;;
  assign (set_cr_password (Some password)) ;;
  o <- this ;;
  assign (set_cr_url (Some (to_registry o))).

Definition initialize_acr : M unit :=
  o <- this ;;
  let acr_name := fst (PyStr.split "." (to_registry o)) in
  let command := "az acr login --name " ++ acr_name ++ " --expose-token" in
  let argv := PyStr.split_list " " command in
  stdout <- external (Subprocess argv) (fun h => subprocess_stdout w h argv) ;;
  access_token <- lift (json_access_token w stdout) ;;
  assign (set_cr_password (Some access_token)) ;;
  assign (set_cr_username (Some "00000000-0000-0000-0000-000000000000")) ;;
  o <- this ;;
  assign (set_cr_url (Some (to_registry o))).

(** The attributes assigned at the top of [__init__] (l.41-51);
    [from_registry] does not exist yet.  These assignments cannot fail and
    nothing reads the object before the URL check, so the constructor starts
    from this object; the client handle of l.40 is not a field, the call that
    creates it is the first event of the constructor. *)
Definition fresh (to_registry : string) (images_to_replicate : list string)
    (region : string) (cloud : option string) (show_log : bool) : obj :=
  {| cloud := cloud; aws_region := region;
     aws_access_key_id := None; aws_access_secret_key := None;
     cr_password := None; cr_username := None; cr_url := None;
     show_log := show_log; to_registry := to_registry;
     images_to_replicate := images_to_replicate;
     tagged_images := []; from_registry := None |}.

(** [DockerManagement(from_registry, to_registry, images_to_replicate,
    region, cloud, show_log)], run after the events of [history]; [images]
    is the argument [images_to_replicate].  The
    state is the object as the constructor leaves it, also when it raises
    (Python then hands no object to the caller).  Its first statement,
    [docker.from_env()], may raise: nothing else happens then. *)
Definition __init__ (from_registry to_registry : string)
    (images : list string) (region : string)
    (cloud : option string) (show_log : bool) (history : list event)
  : state * result unit :=
  (external FromEnv (docker_from_env w) ;;
   if negb (validators_url w from_registry) then
     secho (PText "The source registry does not have a valid URL!") "red"
   else
     assign (set_from_registry
               (Some (PyStr.replace "https://" "" from_registry))) ;;
     assign (set_images_to_replicate images) ;;
     o <- this ;;
     echo (PImages (images_to_replicate o)) ;;
     o <- this ;;
     if cloud_is "aws" o then initialize_ecr
     else if cloud_is "azure" o then initialize_acr
     else ret tt)
    {| self := fresh to_registry images region cloud show_log;
       log := history |}.

Definition pull_image (registry_url image_name : string)
    (username password : option string) : M unit :=
  if negb (is_None username && is_None password) then
    external (Login username password registry_url)
      (fun h => docker_login w h username password registry_url) ;;
    output <- external (Pull (registry_url ++ "/" ++ image_name))
                (fun h => images_pull w h (registry_url ++ "/" ++ image_name)) ;;
    echo (PImage output)
  else
    output <- external (Pull (registry_url ++ "/" ++ image_name))
                (fun h => images_pull w h (registry_url ++ "/" ++ image_name)) ;;
    echo (PImage output).

Definition tag_image (image_name registry_old registry_new : string)
  : M (option image_ref) :=
  img <- external (Get (registry_old ++ "/" ++ image_name))
           (fun h => images_get w h (registry_old ++ "/" ++ image_name)) ;;
  o <- this ;;
  let (target_image, tg) :=
    if cloud_is "aws" o then
      (registry_new,
       PyStr.replace ":" "-" (PyStr.replace "/" "-" image_name))
    else
      (registry_new ++ "/" ++ image_name, "latest") in
  result <- external (Tag img target_image tg)
              (fun h => image_tag w h img target_image tg) ;;
  if (result : bool) then
    ret (Some {| repository := target_image; tag := tg |})
  else ret None.

Definition push_image (image_repo tg : string)
    (registry username password : option string) : M unit :=
  echo (PText "Pushing image:") ;;
  auth_config <-
    match registry, username, password with
    | Some r, Some u, Some p =>
        external (Login (Some u) (Some p) r)
          (fun h => docker_login w h (Some u) (Some p) r) ;;
        ret (Some (u, p))
    | _, _, _ => ret None
    end ;;
  match auth_config with
  | Some auth =>
      push_log <- external (Push image_repo tg (Some auth))
                    (fun h => images_push w h image_repo tg (Some auth)) ;;
      o <- this ;;
      if negb (show_log o) then echo (PLog push_log) else ret tt
  | None => ret tt
  end.

(** [new_image[key]]: subscripting [None] is a [TypeError]. *)
Definition subscript (new_image : option image_ref)
    (field : image_ref -> string) : M string :=
  match new_image with
  | Some d => ret (field d)
  | None => raise (TypeError "'NoneType' object is not subscriptable")
  end.

(** The body of the loop of [copy_images], for one image. *)
Definition copy_image (image_name : string) : M unit :=
  registry_url <- get_from_registry ;;
  pull_image registry_url image_name None None ;;
  registry_old <- get_from_registry ;;
  o <- this ;;
  new_image <- tag_image image_name registry_old (to_registry o) ;;
  o <- this ;;
  assign (set_tagged_images (tagged_images o ++ [new_image])%list) ;;
  repo <- subscript new_image repository ;;
  tg <- subscript new_image tag ;;
  o <- this ;;
  push_image repo tg (cr_url o) (cr_username o) (cr_password o).

Fixpoint copy_loop (images : list string) : M unit :=
  match images with
  | [] => ret tt
  | image_name :: rest => copy_image image_name ;; copy_loop rest
  end.

Definition copy_images : M unit :=
  o <- this ;;
  copy_loop (images_to_replicate o).

End Methods.
End DockerManagement.

(** ** Scenarios

    Concrete worlds on which the methods can be run. *)

Module Scenario.

(** Every service answers; the credentials file has a [default] section. *)
Definition calm : world :=
  {| validators_url :=
       fun url => (PyStr.startswith "https://" url
                   || PyStr.startswith "http://" url)%bool;
     docker_from_env := fun _ => Ok tt;
     home := "/home/user";
     config_read :=
       fun _ _ =>
         Ok [("default", [("aws_access_key_id", "AKIAEXAMPLE");
                          ("aws_secret_access_key", "secret")])];
     ecr_authorization_data :=
       fun _ _ _ _ =>
         Ok [("authorizationToken", "QVdTOnRva2Vu");
             ("proxyEndpoint",
              "https://123456789012.dkr.ecr.eu-central-1.amazonaws.com")];
     b64decode := fun _ => Ok "AWS:token";
     utf8_decode := fun bytes => Ok bytes;
     subprocess_stdout := fun _ _ => Ok "{accessToken: acr-token}";
     json_access_token := fun _ => Ok "acr-token";
     docker_login := fun _ _ _ _ => Ok tt;
     images_pull := fun _ reference => Ok ("sha256:" ++ reference);
     images_get := fun _ reference => Ok ("sha256:" ++ reference);
     image_tag := fun _ _ _ _ => Ok true;
     images_push := fun _ _ _ _ => Ok "pushed" |}.

(** As [calm], but the runtime reports that tagging did not succeed. *)
Definition tag_refused : world :=
  {| validators_url := validators_url calm;
     docker_from_env := docker_from_env calm; home := home calm;
     config_read := config_read calm;
     ecr_authorization_data := ecr_authorization_data calm;
     b64decode := b64decode calm;
     utf8_decode := utf8_decode calm;
     subprocess_stdout := subprocess_stdout calm;
     json_access_token := json_access_token calm;
     docker_login := docker_login calm;
     images_pull := images_pull calm;
     images_get := images_get calm;
     image_tag := fun _ _ _ _ => Ok false;
     images_push := images_push calm |}.

(** As [calm], but the credentials file does not parse. *)
Definition malformed_credentials : world :=
  {| validators_url := validators_url calm;
     docker_from_env := docker_from_env calm; home := home calm;
     config_read :=
       fun _ _ => Raise (ParsingError "Source contains parsing errors");
     ecr_authorization_data := ecr_authorization_data calm;
     b64decode := b64decode calm;
     utf8_decode := utf8_decode calm;
     subprocess_stdout := subprocess_stdout calm;
     json_access_token := json_access_token calm;
     docker_login := docker_login calm;
     images_pull := images_pull calm;
     images_get := images_get calm;
     image_tag := image_tag calm;
     images_push := images_push calm |}.

(** As [malformed_credentials], and the token request is refused. *)
Definition malformed_credentials_no_token : world :=
  {| validators_url := validators_url calm;
     docker_from_env := docker_from_env calm;
     home := home calm;
     config_read := config_read malformed_credentials;
     ecr_authorization_data :=
       fun _ _ _ _ => Raise (ExternalError "NoCredentialsError");
     b64decode := b64decode calm;
     utf8_decode := utf8_decode calm;
     subprocess_stdout := subprocess_stdout calm;
     json_access_token := json_access_token calm;
     docker_login := docker_login calm;
     images_pull := images_pull calm;
     images_get := images_get calm;
     image_tag := image_tag calm;
     images_push := images_push calm |}.

(** As [calm], but no container runtime can be reached. *)
Definition no_runtime : world :=
  {| validators_url := validators_url calm;
     docker_from_env := fun _ => Raise (ExternalError "DockerException");
     home := home calm;
     config_read := config_read calm;
     ecr_authorization_data := ecr_authorization_data calm;
     b64decode := b64decode calm;
     utf8_decode := utf8_decode calm;
     subprocess_stdout := subprocess_stdout calm;
     json_access_token := json_access_token calm;
     docker_login := docker_login calm;
     images_pull := images_pull calm;
     images_get := images_get calm;
     image_tag := image_tag calm;
     images_push := images_push calm |}.

(** An object as a successful generic (no cloud) initialisation leaves it. *)
Definition generic_job (images : list string) : obj :=
  {| cloud := None; aws_region := "eu-central-1";
     aws_access_key_id := None; aws_access_secret_key := None;
     cr_password := None; cr_username := None; cr_url := None;
     show_log := false; to_registry := "myregistry.io";
     images_to_replicate := images;
     tagged_images := []; from_registry := Some "registry.example.com" |}.

(** An object as a successful AWS initialisation leaves it. *)
Definition aws_job (images : list string) : obj :=
  {| cloud := Some "aws"; aws_region := "eu-central-1";
     aws_access_key_id := Some "AKIAEXAMPLE";
     aws_access_secret_key := Some "secret";
     cr_password := Some "token"; cr_username := Some "AWS";
     cr_url := Some "123456789012.dkr.ecr.eu-central-1.amazonaws.com/cek";
     show_log := false;
     to_registry := "123456789012.dkr.ecr.eu-central-1.amazonaws.com/cek";
     images_to_replicate := images;
     tagged_images := []; from_registry := Some "registry.example.com" |}.

(** As [calm], but with another answer for one service. *)
Definition with_config_read (answer : result config) (w : world) : world :=
  {| validators_url := validators_url w; docker_from_env := docker_from_env w; home := home w;
     config_read := fun _ _ => answer;
     ecr_authorization_data := ecr_authorization_data w;
     b64decode := b64decode w; utf8_decode := utf8_decode w;
     subprocess_stdout := subprocess_stdout w;
     json_access_token := json_access_token w;
     docker_login := docker_login w; images_pull := images_pull w;
     images_get := images_get w; image_tag := image_tag w;
     images_push := images_push w |}.

Definition with_b64decode (answer : result string) (w : world) : world :=
  {| validators_url := validators_url w; docker_from_env := docker_from_env w; home := home w;
     config_read := config_read w;
     ecr_authorization_data := ecr_authorization_data w;
     b64decode := fun _ => answer; utf8_decode := utf8_decode w;
     subprocess_stdout := subprocess_stdout w;
     json_access_token := json_access_token w;
     docker_login := docker_login w; images_pull := images_pull w;
     images_get := images_get w; image_tag := image_tag w;
     images_push := images_push w |}.

Definition with_subprocess_stdout (answer : result string) (w : world) : world :=
  {| validators_url := validators_url w; docker_from_env := docker_from_env w; home := home w;
     config_read := config_read w;
     ecr_authorization_data := ecr_authorization_data w;
     b64decode := b64decode w; utf8_decode := utf8_decode w;
     subprocess_stdout := fun _ _ => answer;
     json_access_token := json_access_token w;
     docker_login := docker_login w; images_pull := images_pull w;
     images_get := images_get w; image_tag := image_tag w;
     images_push := images_push w |}.

Definition with_docker_login (answer : result unit) (w : world) : world :=
  {| validators_url := validators_url w; docker_from_env := docker_from_env w; home := home w;
     config_read := config_read w;
     ecr_authorization_data := ecr_authorization_data w;
     b64decode := b64decode w; utf8_decode := utf8_decode w;
     subprocess_stdout := subprocess_stdout w;
     json_access_token := json_access_token w;
     docker_login := fun _ _ _ _ => answer; images_pull := images_pull w;
     images_get := images_get w; image_tag := image_tag w;
     images_push := images_push w |}.

Definition with_images_get (answer : result image) (w : world) : world :=
  {| validators_url := validators_url w; docker_from_env := docker_from_env w; home := home w;
     config_read := config_read w;
     ecr_authorization_data := ecr_authorization_data w;
     b64decode := b64decode w; utf8_decode := utf8_decode w;
     subprocess_stdout := subprocess_stdout w;
     json_access_token := json_access_token w;
     docker_login := docker_login w; images_pull := images_pull w;
     images_get := fun _ _ => answer; image_tag := image_tag w;
     images_push := images_push w |}.

(** The second pull of a run fails: the registry answers the first one
    only. *)
Definition second_pull_fails : world :=
  {| validators_url := validators_url calm; docker_from_env := docker_from_env calm; home := home calm;
     config_read := config_read calm;
     ecr_authorization_data := ecr_authorization_data calm;
     b64decode := b64decode calm; utf8_decode := utf8_decode calm;
     subprocess_stdout := subprocess_stdout calm;
     json_access_token := json_access_token calm;
     docker_login := docker_login calm;
     images_pull :=
       fun history reference =>
         match history with
         | [] => Ok ("sha256:" ++ reference)
         | _ :: _ => Raise (ExternalError "manifest unknown")
         end;
     images_get := images_get calm; image_tag := image_tag calm;
     images_push := images_push calm |}.

(** An object right after the common part of the constructor, on Azure. *)
Definition azure_job (images : list string) : obj :=
  {| cloud := Some "azure"; aws_region := "westeurope";
     aws_access_key_id := None; aws_access_secret_key := None;
     cr_password := None; cr_username := None; cr_url := None;
     show_log := false; to_registry := "cekregistry.azurecr.io";
     images_to_replicate := images;
     tagged_images := []; from_registry := Some "registry.example.com" |}.

(** An object right after the common part of the constructor, on AWS. *)
Definition aws_uninitialized (images : list string) : obj :=
  {| cloud := Some "aws"; aws_region := "eu-central-1";
     aws_access_key_id := None; aws_access_secret_key := None;
     cr_password := None; cr_username := None; cr_url := None;
     show_log := false;
     to_registry := "123456789012.dkr.ecr.eu-central-1.amazonaws.com/cek";
     images_to_replicate := images;
     tagged_images := []; from_registry := Some "registry.example.com" |}.

Definition start (o : obj) : state := {| self := o; log := [] |}.

End Scenario.

(** ** Vocabulary of the properties *)

Import DockerManagement.

(** The line that [push_image] prints when it is entered. *)
Definition banner : event := Echo (PText "Pushing image:").

(** The events of the registry client. *)
Definition is_login (e : event) : bool :=
  match e with Login _ _ _ => true | _ => false end.

Definition is_push (e : event) : bool :=
  match e with Push _ _ _ => true | _ => false end.

(** The events of the credential providers (AWS and Azure). *)
Definition is_credential_setup (e : event) : bool :=
  match e with
  | ReadConfig _ | EcrToken _ _ _ | Subprocess _ => true
  | _ => false
  end.

(** The destination credentials held by an object. *)
Definition credentials (o : obj)
  : option string * option string * option string :=
  (cr_username o, cr_password o, cr_url o).

(** An event is consistent with the credentials of [o]: a login or a push
    carries exactly them, and nothing asks a credential provider. *)
Definition uses_credentials (o : obj) (e : event) : Prop :=
  match e with
  | Login u p r =>
      u = cr_username o /\ p = cr_password o /\ Some r = cr_url o
  | Push _ _ auth =>
      exists u p,
        cr_username o = Some u /\ cr_password o = Some p /\ auth = Some (u, p)
  | ReadConfig _ | EcrToken _ _ _ | Subprocess _ => False
  | _ => True
  end.

(** The tag character map of the AWS branch. *)
Definition hyphenate (c : ascii) : ascii :=
  if (Ascii.eqb c "/" || Ascii.eqb c ":")%bool then "-"%char else c.

(** The reading of [strip the leading https:// prefix] in the
    specification: only an occurrence at the very start is removed. *)
Definition strip_leading_https (url : string) : string :=
  if PyStr.startswith "https://" url
  then String.substring 8 (String.length url - 8) url
  else url.

(** A computation keeps to the credentials of [o]: started on an object that
    holds them, it only produces events consistent with them and ends on an
    object that still holds them (whether it returns or raises). *)
Definition Keeps {A} (o : obj) (m : M A) : Prop :=
  forall st,
    credentials (self st) = credentials o ->
    exists evs,
      log (fst (m st)) = (log st ++ evs)%list
      /\ Forall (uses_credentials o) evs
      /\ credentials (self (fst (m st))) = credentials o.

(** The message printed for an invalid source URL. *)
Definition invalid_url_message : event :=
  Secho (PText "The source registry does not have a valid URL!") "red".

(** A computation leaves [from_registry] as it found it. *)
Definition KeepsSource {A} (m : M A) : Prop :=
  forall st, from_registry (self (fst (m st))) = from_registry (self st).

(** The reference that [tag_image] applies to an image of [o] for the
    destination [registry_new]: its two branches, as a function of the name. *)
Definition derived_reference (o : obj) (registry_new image_name : string)
  : image_ref :=
  if cloud_is "aws" o then
    {| repository := registry_new;
       tag := PyStr.replace ":" "-" (PyStr.replace "/" "-" image_name) |}
  else
    {| repository := registry_new ++ "/" ++ image_name; tag := "latest" |}.

(** Two objects that differ at most in [tagged_images]. *)
Definition same_job (o o' : obj) : Prop :=
  set_tagged_images [] o' = set_tagged_images [] o.

(** The destination credentials are not all there. *)
Definition incomplete_credentials (o : obj) : Prop :=
  cr_url o = None \/ cr_username o = None \/ cr_password o = None.

(** A computation keeps the invariant [I] of the object and only produces
    events that satisfy [P], whether it returns or raises. *)
Definition Runs {A} (I : obj -> Prop) (P : event -> Prop) (m : M A) : Prop :=
  forall st,
    I (self st) ->
    exists evs,
      log (fst (m st)) = (log st ++ evs)%list
      /\ Forall P evs
      /\ I (self (fst (m st))).

(** Every character of a string satisfies a test. *)
Fixpoint forallb_string (f : ascii -> bool) (s : string) : bool :=
  match s with
  | EmptyString => true
  | String c rest => f c && forallb_string f rest
  end.

(** A fetch from the source registry. *)
Definition is_pull (e : event) : bool :=
  match e with Pull _ => true | _ => false end.

(** Neither a registry login nor a push. *)
Definition no_transfer_out (e : event) : bool :=
  negb (is_login e || is_push e).

(** [RunsB I allowed m]: [Runs] for a decidable set of events. *)
Definition RunsB {A} (I : obj -> Prop) (allowed : event -> bool) (m : M A)
  : Prop :=
  Runs I (fun e => allowed e = true) m.

(** The password that the token request and the decoding of its answer
    yield, or the exception that the first failing step raises. *)
Definition ecr_password (w : world) (history : list event)
    (key_id secret_key : option string) (region : string) : result string :=
  match ecr_authorization_data w history key_id secret_key region with
  | Raise e => Raise e
  | Ok ecr_credentials =>
      match getitem ecr_credentials "authorizationToken" with
      | Raise e => Raise e
      | Ok token =>
          match b64decode w token with
          | Raise e => Raise e
          | Ok decoded => utf8_decode w (PyStr.replace "AWS:" "" decoded)
          end
      end
  end.

(** The events by which a call of [push_image] shows in the log: the line
    it prints on entry, its login and its push. *)
Definition is_banner (e : event) : bool :=
  match e with
  | Echo (PText s) => String.eqb s "Pushing image:"
  | _ => false
  end.

Definition push_related (e : event) : bool :=
  (is_banner e || is_login e || is_push e)%bool.

(** What the push of one image must show when it is made with the
    credentials of [o] and returns: the entry line and, when the three
    credentials are there, a login with them followed by the push of the
    derived reference with username and password attached. *)
Definition push_events (o : obj) (image_name : string) : list event :=
  Echo (PText "Pushing image:")
  :: match cr_url o, cr_username o, cr_password o with
     | Some r, Some u, Some p =>
         [Login (Some u) (Some p) r;
          Push (repository (derived_reference o (to_registry o) image_name))
            (tag (derived_reference o (to_registry o) image_name))
            (Some (u, p))]
     | _, _, _ => []
     end.

Ltac run :=
  unfold bind, ret, raise, this, assign, lift, external, echo, secho;
  cbn -[String.append PyStr.replace PyStr.map path_join].

(** ** Facts about the string operations *)

Module PyStrFacts.
Import PyStr.

Lemma startswith_true_iff (p s : string) :
  startswith p s = true <-> exists r, s = p ++ r.
Proof.
  revert s; induction p as [|a p IH]; intros s; simpl.
  - split; [intros _; exists s; reflexivity | reflexivity].
  - destruct s as [|b s].
    + split; [discriminate | intros [r H]; discriminate].
    + rewrite andb_true_iff, IH. split.
      * intros [Hab [r H]]. apply Ascii.eqb_eq in Hab. exists r. now subst.
      * intros [r H]. injection H as -> ->. split.
        -- apply Ascii.eqb_refl.
        -- now exists r.
Qed.

Lemma append_nil_r (s : string) : s ++ "" = s.
Proof. induction s as [|c s IH]; simpl; congruence. Qed.

Lemma append_assoc (a b c : string) : (a ++ b) ++ c = a ++ (b ++ c).
Proof. induction a as [|x a IH]; simpl; congruence. Qed.

Lemma contains_true_iff (old s : string) :
  contains old s = true <-> exists pre post, s = pre ++ old ++ post.
Proof.
  induction s as [|c s IH]; simpl.
  - rewrite startswith_true_iff. split.
    + intros [r H]. exists "", r. exact H.
    + intros [pre [post H]]. destruct pre as [|x pre]; [|discriminate].
      exists post. exact H.
  - rewrite orb_true_iff, IH, startswith_true_iff. split.
    + intros [[r H] | [pre [post H]]].
      * exists "", r. exact H.
      * exists (String c pre), post. simpl. now rewrite H.
    + intros [pre [post H]]. destruct pre as [|x pre]; simpl in H.
      * left. exists post. exact H.
      * right. injection H as _ H. exists pre, post. exact H.
Qed.

Lemma replace_from_skip (old new p r : string) :
  replace_from old new (String.length p) (p ++ r) = replace_from old new 0 r.
Proof.
  induction p as [|c p IH]; simpl; [|exact IH].
  destruct r; reflexivity.
Qed.

(** A leading occurrence is replaced, and the scan goes on behind it. *)
Lemma replace_leading (old new r : string) :
  old <> "" -> replace old new (old ++ r) = new ++ replace old new r.
Proof.
  destruct old as [|c old]; [congruence|]. intros _.
  unfold replace. cbn [append replace_from].
  assert (Hp : startswith (String c old) (String c (old ++ r)) = true).
  { apply startswith_true_iff. exists r. reflexivity. }
  rewrite Hp. cbn [String.length Nat.pred].
  now rewrite replace_from_skip.
Qed.

(** Without an occurrence nothing changes. *)
Lemma replace_absent (old new s : string) :
  contains old s = false -> replace old new s = s.
Proof.
  destruct old as [|c old].
  - intros H. exfalso. destruct s; simpl in H; discriminate.
  - unfold replace. induction s as [|x s IH]; [reflexivity|].
    intros H. cbn [contains] in H. apply orb_false_iff in H as [Hp Hc].
    cbn [replace_from]. rewrite Hp. f_equal. exact (IH Hc).
Qed.

(** Replacing one character by another is a character-wise map. *)
Lemma replace_char (a b : ascii) (s : string) :
  replace (String a "") (String b "") s
  = map (fun c => if Ascii.eqb c a then b else c) s.
Proof.
  unfold replace. induction s as [|x s IH]; [reflexivity|].
  cbn [replace_from map startswith String.length Nat.pred].
  destruct (Ascii.ascii_dec a x) as [->|Hne].
  - rewrite Ascii.eqb_refl. simpl. f_equal. destruct s; [reflexivity|exact IH].
  - destruct (Ascii.eqb_spec a x); [congruence|].
    destruct (Ascii.eqb_spec x a); [congruence|].
    simpl. f_equal. exact IH.
Qed.

End PyStrFacts.

(** ** Properties of the registry client and of the orchestrator *)

(** C9.  With an empty image list [copy_images] makes no call at all (no
    pull, tag or push: the log is untouched) and returns normally. *)
Theorem copy_images_empty (w : world) (st : state) :
  images_to_replicate (self st) = [] ->
  copy_images w st = (st, Ok tt).
Proof.
  intros H. unfold copy_images. run. rewrite H. reflexivity.
Qed.

Lemma copy_images_empty_witness :
  copy_images Scenario.calm (Scenario.start (Scenario.generic_job []))
  = (Scenario.start (Scenario.generic_job []), Ok tt).
Proof.
  apply (copy_images_empty Scenario.calm
           (Scenario.start (Scenario.generic_job []))).
  reflexivity.
Defined.

(** *** Push *)

(** C1, as the code has it.  When registry, username and password are all
    given and the login succeeds, [push_image] prints its banner, logs in to
    the registry with these credentials and then pushes the image with the
    same username and password attached (the push log is printed afterwards
    unless [show_log] is set).  When any of the three is missing it performs
    neither a login nor a push: it prints the banner and returns. *)
Theorem push_image_needs_all_credentials
    (w : world) (st : state) (image_repo tg : string)
    (registry username password : option string) :
  (forall r u p,
      registry = Some r -> username = Some u -> password = Some p ->
      docker_login w (log st ++ [banner])%list (Some u) (Some p) r = Ok tt ->
      exists tail,
        log (fst (push_image w image_repo tg registry username password st))
        = (log st
             ++ [banner; Login (Some u) (Some p) r;
                 Push image_repo tg (Some (u, p))] ++ tail)%list
        /\ (tail = [] \/ exists push_log, tail = [Echo (PLog push_log)]))
  /\ (registry = None \/ username = None \/ password = None ->
      push_image w image_repo tg registry username password st
      = ({| self := self st; log := (log st ++ [banner])%list |}, Ok tt)).
Proof.
  split.
  - intros r u p -> -> -> Hlogin. unfold push_image, banner in *. run.
    rewrite Hlogin. cbn.
    destruct (images_push w _ image_repo tg (Some (u, p))) as [push_log|e]; cbn.
    + destruct (show_log (self st)); cbn.
      * exists []. split; [|now left].
        rewrite <- !app_assoc. reflexivity.
      * exists [Echo (PLog push_log)]. split; [|right; now exists push_log].
        rewrite <- !app_assoc. reflexivity.
    + exists []. split; [|now left]. rewrite <- !app_assoc. reflexivity.
  - intros H. unfold push_image, banner. run.
    destruct registry as [r|]; [destruct username as [u|];
      [destruct password as [p|]|]|]; try reflexivity.
    destruct H as [H|[H|H]]; discriminate.
Qed.

Lemma push_image_needs_all_credentials_witness :
  (exists tail,
      log (fst (push_image Scenario.calm "myregistry.io/app" "latest"
                  (Some "myregistry.io") (Some "user") (Some "pass")
                  (Scenario.start (Scenario.generic_job []))))
      = ([] ++ [banner; Login (Some "user") (Some "pass") "myregistry.io";
                Push "myregistry.io/app" "latest" (Some ("user", "pass"))]
            ++ tail)%list
      /\ (tail = [] \/ exists push_log, tail = [Echo (PLog push_log)]))
  /\ push_image Scenario.calm "myregistry.io/app" "latest"
       None (Some "user") (Some "pass")
       (Scenario.start (Scenario.generic_job []))
     = ({| self := Scenario.generic_job []; log := [banner] |}, Ok tt).
Proof.
  split.
  - apply (proj1 (push_image_needs_all_credentials Scenario.calm
                    (Scenario.start (Scenario.generic_job []))
                    "myregistry.io/app" "latest"
                    (Some "myregistry.io") (Some "user") (Some "pass"))
             "myregistry.io" "user" "pass");
      reflexivity.
  - apply (proj2 (push_image_needs_all_credentials Scenario.calm
                    (Scenario.start (Scenario.generic_job []))
                    "myregistry.io/app" "latest"
                    None (Some "user") (Some "pass"))).
    left. reflexivity.
Defined.

(** C1 as stated fails: with the registry missing (username and password
    given) no push takes place at all. *)
Lemma push_image_without_registry_does_not_push :
  let st' := fst (push_image Scenario.calm "myregistry.io/app" "latest"
                    None (Some "user") (Some "pass")
                    (Scenario.start (Scenario.generic_job []))) in
  log st' = [banner]
  /\ existsb is_push (log st') = false.
Proof. split; reflexivity. Qed.

(** *** Pull *)

(** C10.  [pull_image] logs in to the registry exactly when at least one of
    username and password is not [None] (one of them is enough), the login
    being its first call; with both [None] its first call is the fetch and it
    never logs in.  In either case the fetch of [registry/image] follows: at
    once without credentials, and as soon as the login has returned with
    them. *)
Theorem pull_image_login_unless_both_None
    (w : world) (st : state) (registry_url image_name : string)
    (username password : option string) :
  let reference := registry_url ++ "/" ++ image_name in
  let st' := fst (pull_image w registry_url image_name username password st) in
  (username = None /\ password = None ->
     exists tail,
       log st' = (log st ++ Pull reference :: tail)%list
       /\ existsb is_login (Pull reference :: tail) = false)
  /\ (username <> None \/ password <> None ->
     exists tail,
       log st' = (log st ++ Login username password registry_url :: tail)%list
       /\ (docker_login w (log st) username password registry_url = Ok tt ->
           exists tail', tail = Pull reference :: tail')).
Proof.
  cbn zeta. split.
  - intros [-> ->]. unfold pull_image. run.
    destruct (images_pull w (log st) _) as [out|e]; cbn.
    + exists [Echo (PImage out)]. split; [|reflexivity].
      rewrite <- app_assoc. reflexivity.
    + exists []. split; reflexivity.
  - intros H. unfold pull_image.
    assert (Hc : negb (is_None username && is_None password) = true).
    { destruct username, password; try reflexivity.
      destruct H as [H|H]; congruence. }
    rewrite Hc. run.
    destruct (docker_login w (log st) username password registry_url)
      as [[]|e]; cbn.
    + destruct (images_pull w _ _) as [out|e]; cbn.
      * eexists. split.
        -- rewrite <- !app_assoc. cbn. reflexivity.
        -- intros _. eexists. reflexivity.
      * eexists. split.
        -- rewrite <- !app_assoc. cbn. reflexivity.
        -- intros _. eexists. reflexivity.
    + exists []. split; [reflexivity|discriminate].
Qed.

Lemma pull_image_login_unless_both_None_witness :
  (exists tail,
      log (fst (pull_image Scenario.calm "registry.example.com" "app/service:v1"
                  None None (Scenario.start (Scenario.generic_job []))))
      = ([] ++ Pull "registry.example.com/app/service:v1" :: tail)%list
      /\ existsb is_login (Pull "registry.example.com/app/service:v1" :: tail)
         = false)
  /\ (exists tail,
      log (fst (pull_image Scenario.calm "registry.example.com" "app/service:v1"
                  (Some "user") None (Scenario.start (Scenario.generic_job []))))
      = ([] ++ Login (Some "user") None "registry.example.com" :: tail)%list
      /\ exists tail', tail = Pull "registry.example.com/app/service:v1" :: tail').
Proof.
  split.
  - apply (proj1 (pull_image_login_unless_both_None Scenario.calm
                    (Scenario.start (Scenario.generic_job []))
                    "registry.example.com" "app/service:v1" None None)).
    split; reflexivity.
  - destruct (proj2 (pull_image_login_unless_both_None Scenario.calm
                       (Scenario.start (Scenario.generic_job []))
                       "registry.example.com" "app/service:v1"
                       (Some "user") None)) as [tail [Hlog Hnext]].
    + left. discriminate.
    + exists tail. split; [exact Hlog|]. apply Hnext. reflexivity.
Defined.

(** *** Tag *)

Lemma aws_tag_is_hyphenated (image_name : string) :
  PyStr.replace ":" "-" (PyStr.replace "/" "-" image_name)
  = PyStr.map hyphenate image_name.
Proof.
  rewrite !PyStrFacts.replace_char.
  induction image_name as [|c s IH]; [reflexivity|].
  cbn [PyStr.map]. rewrite IH. f_equal.
  unfold hyphenate. destruct (Ascii.eqb_spec c "/") as [->|Hs]; reflexivity.
Qed.

Lemma cloud_is_aws_iff (o : obj) :
  cloud_is "aws" o = true <-> cloud o = Some "aws".
Proof.
  unfold cloud_is. destruct (cloud o) as [c|].
  - rewrite String.eqb_eq. split; congruence.
  - split; discriminate.
Qed.

(** C4.  In the AWS case [tag_image] applies to the local image the
    repository [registry_new], unchanged, and as tag the image name in which
    every slash and every colon has become a hyphen (all other characters
    stay); this pair is what it returns when the runtime accepts the tag.
    For the name app/service:v1 the tag is app-service-v1. *)
Theorem tag_image_aws
    (w : world) (st : state) (image_name registry_old registry_new : string)
    (img : image) :
  cloud (self st) = Some "aws" ->
  images_get w (log st) (registry_old ++ "/" ++ image_name) = Ok img ->
  let sanitized := PyStr.map hyphenate image_name in
  let run := tag_image w image_name registry_old registry_new st in
  log (fst run)
  = (log st ++ [Get (registry_old ++ "/" ++ image_name);
                Tag img registry_new sanitized])%list
  /\ (image_tag w (log st ++ [Get (registry_old ++ "/" ++ image_name)])%list
        img registry_new sanitized = Ok true ->
      snd run = Ok (Some {| repository := registry_new; tag := sanitized |}))
  /\ PyStr.replace ":" "-" (PyStr.replace "/" "-" "app/service:v1")
     = "app-service-v1".
Proof.
  intros Hcloud Hget. cbn zeta. unfold tag_image. run.
  rewrite Hget. run.
  apply cloud_is_aws_iff in Hcloud. rewrite Hcloud.
  rewrite aws_tag_is_hyphenated. run.
  split; [|split].
  - destruct (image_tag w _ img registry_new _) as [[|]|e]; cbn;
      rewrite <- app_assoc; reflexivity.
  - intros Htag. rewrite Htag. reflexivity.
  - reflexivity.
Qed.

Lemma tag_image_aws_witness :
  let run := tag_image Scenario.calm "app/service:v1" "registry.example.com"
               "123456789012.dkr.ecr.eu-central-1.amazonaws.com/cek"
               (Scenario.start (Scenario.aws_job ["app/service:v1"])) in
  log (fst run)
  = [Get "registry.example.com/app/service:v1";
     Tag "sha256:registry.example.com/app/service:v1"
       "123456789012.dkr.ecr.eu-central-1.amazonaws.com/cek" "app-service-v1"]
  /\ snd run
     = Ok (Some {| repository :=
                     "123456789012.dkr.ecr.eu-central-1.amazonaws.com/cek";
                   tag := "app-service-v1" |}).
Proof.
  destruct (tag_image_aws Scenario.calm
              (Scenario.start (Scenario.aws_job ["app/service:v1"]))
              "app/service:v1" "registry.example.com"
              "123456789012.dkr.ecr.eu-central-1.amazonaws.com/cek"
              "sha256:registry.example.com/app/service:v1"
              eq_refl eq_refl) as [Hlog [Hret _]].
  split; [exact Hlog | exact (Hret eq_refl)].
Defined.

(** C5.  When the cloud kind is not AWS, [tag_image] applies to the local
    image the repository [registry_new/image_name] (the image name as it was
    given) and the fixed tag latest; this pair is what it returns when the
    runtime accepts the tag.  For app/service:v1 and myregistry.io the
    repository is myregistry.io/app/service:v1. *)
Theorem tag_image_generic
    (w : world) (st : state) (image_name registry_old registry_new : string)
    (img : image) :
  cloud (self st) <> Some "aws" ->
  images_get w (log st) (registry_old ++ "/" ++ image_name) = Ok img ->
  let target := registry_new ++ "/" ++ image_name in
  let run := tag_image w image_name registry_old registry_new st in
  log (fst run)
  = (log st ++ [Get (registry_old ++ "/" ++ image_name);
                Tag img target "latest"])%list
  /\ (image_tag w (log st ++ [Get (registry_old ++ "/" ++ image_name)])%list
        img target "latest" = Ok true ->
      snd run = Ok (Some {| repository := target; tag := "latest" |})).
Proof.
  intros Hcloud Hget. cbn zeta. unfold tag_image. run.
  rewrite Hget. run.
  destruct (cloud_is "aws" (self st)) eqn:Haws.
  { apply cloud_is_aws_iff in Haws. contradiction. }
  run. split.
  - destruct (image_tag w _ img _ _) as [[|]|e]; cbn;
      rewrite <- app_assoc; reflexivity.
  - intros Htag. rewrite Htag. reflexivity.
Qed.

Lemma tag_image_generic_witness :
  let run := tag_image Scenario.calm "app/service:v1" "registry.example.com"
               "myregistry.io"
               (Scenario.start (Scenario.generic_job ["app/service:v1"])) in
  log (fst run)
  = [Get "registry.example.com/app/service:v1";
     Tag "sha256:registry.example.com/app/service:v1"
       "myregistry.io/app/service:v1" "latest"]
  /\ snd run
     = Ok (Some {| repository := "myregistry.io/app/service:v1";
                   tag := "latest" |}).
Proof.
  destruct (tag_image_generic Scenario.calm
              (Scenario.start (Scenario.generic_job ["app/service:v1"]))
              "app/service:v1" "registry.example.com" "myregistry.io"
              "sha256:registry.example.com/app/service:v1")
    as [Hlog Hret].
  - discriminate.
  - reflexivity.
  - split; [exact Hlog | exact (Hret eq_refl)].
Defined.

(** *** The replication loop *)

Lemma bind_ok {A B} (m : M A) (k : A -> M B) (st st' : state) (a : A) :
  m st = (st', Ok a) -> bind m k st = k a st'.
Proof. intros H. unfold bind. rewrite H. reflexivity. Qed.

Lemma bind_raise {A B} (m : M A) (k : A -> M B) (st st' : state) (e : exn) :
  m st = (st', Raise e) -> bind m k st = (st', Raise e).
Proof. intros H. unfold bind. rewrite H. reflexivity. Qed.

Lemma copy_loop_app (w : world) (done rest : list string) (st : state) :
  copy_loop w (done ++ rest)%list st
  = bind (copy_loop w done) (fun _ => copy_loop w rest) st.
Proof.
  revert st. induction done as [|image_name done IH]; intros st.
  - reflexivity.
  - cbn [app copy_loop]. unfold bind in *.
    destruct (copy_image w image_name st) as [st1 [[]|e]];
      [apply IH | reflexivity].
Qed.

Lemma pull_image_self (w : world) (registry_url image_name : string)
    (username password : option string) (st : state) :
  self (fst (pull_image w registry_url image_name username password st))
  = self st.
Proof.
  unfold pull_image.
  destruct (negb (is_None username && is_None password)); run.
  - destruct (docker_login w (log st) username password registry_url)
      as [[]|e]; cbn; [|reflexivity].
    destruct (images_pull w _ _); reflexivity.
  - destruct (images_pull w _ _); reflexivity.
Qed.

(** C2, as the code has it.  When the runtime reports that tagging did not
    succeed, [tag_image] returns [None].  [copy_images] does not check that
    value: it appends it to [tagged_images] and then reads the repository
    out of it, which raises a [TypeError].  The run ends there: [push_image]
    is not entered for that image (the log ends with the tag call) and the
    remaining images are not processed. *)
Theorem copy_images_failed_tag_raises
    (w : world) (st st1 st2 : state) (done rest : list string)
    (image_name registry : string) (img : image) :
  let reference := registry ++ "/" ++ image_name in
  let target :=
    if cloud_is "aws" (self st2) then to_registry (self st2)
    else to_registry (self st2) ++ "/" ++ image_name in
  let tg :=
    if cloud_is "aws" (self st2) then PyStr.map hyphenate image_name
    else "latest" in
  let st3 := {| self := self st2;
                log := (log st2 ++ [Get reference; Tag img target tg])%list |} in
  images_to_replicate (self st) = (done ++ image_name :: rest)%list ->
  copy_loop w done st = (st1, Ok tt) ->
  from_registry (self st1) = Some registry ->
  pull_image w registry image_name None None st1 = (st2, Ok tt) ->
  images_get w (log st2) reference = Ok img ->
  image_tag w (log st2 ++ [Get reference])%list img target tg = Ok false ->
  tag_image w image_name registry (to_registry (self st2)) st2 = (st3, Ok None)
  /\ copy_images w st
     = ({| self := set_tagged_images
                     (tagged_images (self st2) ++ [None])%list (self st2);
           log := log st3 |},
        Raise (TypeError "'NoneType' object is not subscriptable")).
Proof.
  cbn zeta. intros Himages Hdone Hfrom Hpull Hget Htag.
  assert (Hself : self st2 = self st1).
  { pose proof (pull_image_self w registry image_name None None st1) as H.
    rewrite Hpull in H. exact H. }
  assert (Hfrom2 : from_registry (self st2) = Some registry)
    by now rewrite Hself.
  match goal with
  | |- ?lhs = (?st3, _) /\ _ => assert (Htagged : lhs = (st3, Ok None))
  end.
  { unfold tag_image. run. rewrite Hget. run.
    destruct (cloud_is "aws" (self st2));
      [rewrite aws_tag_is_hyphenated|]; run; rewrite Htag; run;
      rewrite <- app_assoc; reflexivity. }
  split; [exact Htagged|].
  assert (Hreg1 : get_from_registry st1 = (st1, Ok registry)).
  { unfold get_from_registry. run. rewrite Hfrom. reflexivity. }
  assert (Hreg2 : get_from_registry st2 = (st2, Ok registry)).
  { unfold get_from_registry. run. rewrite Hfrom2. reflexivity. }
  unfold copy_images.
  rewrite (bind_ok this _ st st (self st) eq_refl).
  rewrite Himages, copy_loop_app.
  rewrite (bind_ok _ _ _ _ _ Hdone). cbn [copy_loop].
  apply bind_raise. unfold copy_image.
  rewrite (bind_ok _ _ _ _ _ Hreg1), (bind_ok _ _ _ _ _ Hpull).
  rewrite (bind_ok _ _ _ _ _ Hreg2).
  rewrite (bind_ok this _ st2 st2 (self st2) eq_refl).
  rewrite (bind_ok _ _ _ _ _ Htagged).
  reflexivity.
Qed.

Lemma copy_images_failed_tag_raises_witness :
  let st := Scenario.start (Scenario.generic_job ["app/service:v1"; "db:2"]) in
  let st2 := fst (pull_image Scenario.tag_refused "registry.example.com"
                    "app/service:v1" None None st) in
  let st3 :=
    {| self := self st2;
       log := (log st2
                 ++ [Get "registry.example.com/app/service:v1";
                     Tag "sha256:registry.example.com/app/service:v1"
                       "myregistry.io/app/service:v1" "latest"])%list |} in
  tag_image Scenario.tag_refused "app/service:v1" "registry.example.com"
    "myregistry.io" st2
  = (st3, Ok None)
  /\ copy_images Scenario.tag_refused st
     = ({| self := set_tagged_images [None] (self st2); log := log st3 |},
        Raise (TypeError "'NoneType' object is not subscriptable")).
Proof.
  cbn zeta.
  apply (copy_images_failed_tag_raises Scenario.tag_refused
           (Scenario.start (Scenario.generic_job ["app/service:v1"; "db:2"]))
           (Scenario.start (Scenario.generic_job ["app/service:v1"; "db:2"]))
           (fst (pull_image Scenario.tag_refused "registry.example.com"
                   "app/service:v1" None None
                   (Scenario.start
                      (Scenario.generic_job ["app/service:v1"; "db:2"]))))
           [] ["db:2"] "app/service:v1" "registry.example.com"
           "sha256:registry.example.com/app/service:v1");
    reflexivity.
Defined.

(** C2 as stated fails: after a failed tag the run does not go on to the
    push.  It ends with a [TypeError]; [push_image] is never entered (no
    banner, no login, no push) and the second image is never pulled. *)
Lemma copy_images_failed_tag_never_pushes :
  let run := copy_images Scenario.tag_refused
               (Scenario.start
                  (Scenario.generic_job ["app/service:v1"; "db:2"])) in
  snd run = Raise (TypeError "'NoneType' object is not subscriptable")
  /\ log (fst run)
     = [Pull "registry.example.com/app/service:v1";
        Echo (PImage "sha256:registry.example.com/app/service:v1");
        Get "registry.example.com/app/service:v1";
        Tag "sha256:registry.example.com/app/service:v1"
          "myregistry.io/app/service:v1" "latest"]
  /\ existsb is_push (log (fst run)) = false
  /\ tagged_images (self (fst run)) = [None].
Proof. repeat split; reflexivity. Qed.

(** *** Credentials during a run *)

Section KeepsRules.

Variable o : obj.

Lemma Keeps_ret {A} (a : A) : Keeps o (ret a).
Proof.
  intros st H. exists []. cbn. rewrite app_nil_r. auto.
Qed.

Lemma Keeps_raise {A} (e : exn) : Keeps o (@raise A e).
Proof.
  intros st H. exists []. cbn. rewrite app_nil_r. auto.
Qed.

Lemma Keeps_lift {A} (r : result A) : Keeps o (lift r).
Proof.
  intros st H. exists []. cbn. rewrite app_nil_r. auto.
Qed.

Lemma Keeps_external {A} (e : event) (answer : list event -> result A) :
  uses_credentials o e -> Keeps o (external e answer).
Proof.
  intros He st H. exists [e]. cbn. auto.
Qed.

Lemma Keeps_assign (f : obj -> obj) :
  (forall o', credentials (f o') = credentials o') -> Keeps o (assign f).
Proof.
  intros Hf st H. exists []. cbn. rewrite app_nil_r, Hf. auto.
Qed.

Lemma Keeps_bind {A B} (m : M A) (k : A -> M B) :
  Keeps o m -> (forall a, Keeps o (k a)) -> Keeps o (bind m k).
Proof.
  intros Hm Hk st H. destruct (Hm st H) as [evs [Hlog [Hall Hcred]]].
  unfold bind. destruct (m st) as [st1 [a|e]]; cbn in *.
  - destruct (Hk a st1 Hcred) as [evs' [Hlog' [Hall' Hcred']]].
    exists (evs ++ evs')%list. rewrite Hlog', Hlog, app_assoc.
    split; [reflexivity|]. split; [|exact Hcred'].
    apply Forall_app. auto.
  - exists evs. auto.
Qed.

Lemma Keeps_this (B : Type) (k : obj -> M B) :
  (forall o', credentials o' = credentials o -> Keeps o (k o')) ->
  Keeps o (bind this k).
Proof.
  intros Hk st H. unfold bind, this. apply (Hk (self st) H st H).
Qed.

End KeepsRules.

Lemma pull_image_anonymous_Keeps (w : world) (o : obj)
    (registry_url image_name : string) :
  Keeps o (pull_image w registry_url image_name None None).
Proof.
  unfold pull_image. cbn [is_None andb negb].
  apply Keeps_bind; [apply Keeps_external; exact I|].
  intros out. apply Keeps_external. exact I.
Qed.

Lemma tag_image_Keeps (w : world) (o : obj)
    (image_name registry_old registry_new : string) :
  Keeps o (tag_image w image_name registry_old registry_new).
Proof.
  unfold tag_image.
  apply Keeps_bind; [apply Keeps_external; exact I|]. intros img.
  apply Keeps_this. intros o' _.
  destruct (if cloud_is "aws" o' then _ else _) as [target tg].
  apply Keeps_bind; [apply Keeps_external; exact I|].
  intros [|]; apply Keeps_ret.
Qed.

Lemma push_image_Keeps (w : world) (o o' : obj) (image_repo tg : string) :
  credentials o' = credentials o ->
  Keeps o (push_image w image_repo tg (cr_url o') (cr_username o')
             (cr_password o')).
Proof.
  unfold credentials. intros [= Hu Hp Hr] st H. unfold push_image. run.
  destruct (cr_url o') as [r|], (cr_username o') as [u|],
    (cr_password o') as [p|]; cbn;
    try solve [exists [banner]; cbn; repeat split; auto; repeat constructor].
  destruct (docker_login w _ (Some u) (Some p) r) as [[]|e]; cbn.
  - assert (Hpush : uses_credentials o (Push image_repo tg (Some (u, p)))).
    { cbn. exists u, p. auto. }
    assert (Hlogin : uses_credentials o (Login (Some u) (Some p) r)).
    { cbn. auto. }
    destruct (images_push w _ image_repo tg (Some (u, p))) as [push_log|e];
      cbn; [destruct (show_log (self st)); cbn|];
      eexists; (split; [rewrite <- !app_assoc; reflexivity|]);
      (split; [|exact H]); repeat constructor; assumption.
  - exists [banner; Login (Some u) (Some p) r]. rewrite <- app_assoc.
    split; [reflexivity|]. split; [|exact H].
    repeat constructor; assumption.
Qed.

Lemma copy_image_Keeps (w : world) (o : obj) (image_name : string) :
  Keeps o (copy_image w image_name).
Proof.
  unfold copy_image.
  apply Keeps_bind.
  { unfold get_from_registry. apply Keeps_this. intros o' _.
    destruct (from_registry o'); [apply Keeps_ret | apply Keeps_raise]. }
  intros registry_url.
  apply Keeps_bind; [apply pull_image_anonymous_Keeps|]. intros _.
  apply Keeps_bind.
  { unfold get_from_registry. apply Keeps_this. intros o' _.
    destruct (from_registry o'); [apply Keeps_ret | apply Keeps_raise]. }
  intros registry_old.
  apply Keeps_this. intros o1 _.
  apply Keeps_bind; [apply tag_image_Keeps|]. intros new_image.
  apply Keeps_this. intros o2 _.
  apply Keeps_bind; [apply Keeps_assign; reflexivity|]. intros _.
  apply Keeps_bind.
  { destruct new_image; [apply Keeps_ret | apply Keeps_raise]. }
  intros repo.
  apply Keeps_bind.
  { destruct new_image; [apply Keeps_ret | apply Keeps_raise]. }
  intros tg.
  apply Keeps_this. intros o3 H3.
  apply push_image_Keeps. exact H3.
Qed.

Lemma copy_loop_Keeps (w : world) (o : obj) (images : list string) :
  Keeps o (copy_loop w images).
Proof.
  induction images as [|image_name rest IH]; cbn [copy_loop].
  - apply Keeps_ret.
  - apply Keeps_bind; [apply copy_image_Keeps | intros _; exact IH].
Qed.

(** Throughout a run of [copy_images], whatever the services answer, every
    registry login is made with the username, password and registry URL the
    object held when the run started, every push carries that username and
    password, the three fields are the same at the end of the run, and no
    credential provider is consulted (no credentials file is read, no token
    is requested, no command is run). *)
Lemma copy_images_keeps_credentials (w : world) (st : state) :
  exists evs,
    log (fst (copy_images w st)) = (log st ++ evs)%list
    /\ Forall (uses_credentials (self st)) evs
    /\ existsb is_credential_setup evs = false
    /\ credentials (self (fst (copy_images w st))) = credentials (self st).
Proof.
  assert (HK : Keeps (self st) (copy_images w)).
  { unfold copy_images. apply Keeps_this. intros o' _. apply copy_loop_Keeps. }
  destruct (HK st eq_refl) as [evs [Hlog [Hall Hcred]]].
  exists evs. repeat split; try assumption.
  clear Hlog Hcred. induction Hall as [|e evs He _ IH]; [reflexivity|].
  cbn [existsb]. rewrite IH. destruct e; try reflexivity; destruct He.
Qed.

(** A run over two images on AWS: the same login and the same credentials
    at both pushes. *)
Example copy_images_two_images_on_aws :
  log (fst (copy_images Scenario.calm
              (Scenario.start (Scenario.aws_job ["app/service:v1"; "db:2"]))))
  = [Pull "registry.example.com/app/service:v1";
     Echo (PImage "sha256:registry.example.com/app/service:v1");
     Get "registry.example.com/app/service:v1";
     Tag "sha256:registry.example.com/app/service:v1"
       "123456789012.dkr.ecr.eu-central-1.amazonaws.com/cek" "app-service-v1";
     banner;
     Login (Some "AWS") (Some "token")
       "123456789012.dkr.ecr.eu-central-1.amazonaws.com/cek";
     Push "123456789012.dkr.ecr.eu-central-1.amazonaws.com/cek"
       "app-service-v1" (Some ("AWS", "token"));
     Echo (PLog "pushed");
     Pull "registry.example.com/db:2";
     Echo (PImage "sha256:registry.example.com/db:2");
     Get "registry.example.com/db:2";
     Tag "sha256:registry.example.com/db:2"
       "123456789012.dkr.ecr.eu-central-1.amazonaws.com/cek" "db-2";
     banner;
     Login (Some "AWS") (Some "token")
       "123456789012.dkr.ecr.eu-central-1.amazonaws.com/cek";
     Push "123456789012.dkr.ecr.eu-central-1.amazonaws.com/cek"
       "db-2" (Some ("AWS", "token"));
     Echo (PLog "pushed")].
Proof. reflexivity. Qed.

(** *** Initialisation *)

(** Once the runtime client exists and the URL is valid, the constructor has
    stored the source registry and printed the image list, and goes on with
    the credential path of the cloud kind. *)
Lemma init_valid_unfold
    (w : world) (from_url to_url : string) (images : list string)
    (region : string) (cloud_kind : option string) (verbose : bool)
    (history : list event) :
  docker_from_env w history = Ok tt ->
  validators_url w from_url = true ->
  __init__ w from_url to_url images region cloud_kind verbose history
  = (if cloud_is "aws" (fresh to_url images region cloud_kind verbose)
     then initialize_ecr w
     else if cloud_is "azure" (fresh to_url images region cloud_kind verbose)
          then initialize_acr w
          else ret tt)
      {| self := set_from_registry
                   (Some (PyStr.replace "https://" "" from_url))
                   (fresh to_url images region cloud_kind verbose);
         log := (history ++ [FromEnv; Echo (PImages images)])%list |}.
Proof.
  intros Hclient Hvalid. unfold __init__.
  erewrite bind_ok
    by (unfold external; cbn [self log]; rewrite Hclient; reflexivity).
  rewrite Hvalid. cbn [negb].
  repeat (erewrite bind_ok by reflexivity).
  cbn [self log]. rewrite <- app_assoc. reflexivity.
Qed.

(** C7.  With an invalid source URL no cloud credential path runs, whatever
    the cloud kind and the world: the constructor makes no call to a
    credential provider, the destination credentials and the AWS keys stay
    unset and [from_registry] is never assigned.  Once the runtime client has
    been created, the constructor prints the error and returns at once (the
    message is its only further event), and the object is not usable for
    replication: on any non-empty image list [copy_images] raises an
    [AttributeError] before it makes a single call. *)
Theorem init_invalid_url
    (w : world) (from_url to_url : string) (images : list string)
    (region : string) (cloud_kind : option string) (verbose : bool)
    (history : list event) :
  validators_url w from_url = false ->
  let made := __init__ w from_url to_url images region cloud_kind verbose
                history in
  (exists evs,
      log (fst made) = (history ++ evs)%list
      /\ existsb is_credential_setup evs = false)
  /\ from_registry (self (fst made)) = None
  /\ credentials (self (fst made)) = (None, None, None)
  /\ aws_access_key_id (self (fst made)) = None
  /\ aws_access_secret_key (self (fst made)) = None
  /\ (docker_from_env w history = Ok tt ->
      made = ({| self := fresh to_url images region cloud_kind verbose;
                 log := (history ++ [FromEnv; invalid_url_message])%list |},
              Ok tt)
      /\ (images <> [] ->
          copy_images w (fst made)
          = (fst made, Raise (AttributeError "from_registry")))).
Proof.
  intros Hinvalid. cbn zeta. unfold __init__. rewrite Hinvalid. cbn [negb].
  run. destruct (docker_from_env w history) as [[]|e]; run.
  - repeat split.
    + exists [FromEnv; invalid_url_message]. rewrite <- app_assoc.
      split; reflexivity.
    + rewrite <- app_assoc. reflexivity.
    + intros Hne. destruct images as [|image_name rest]; [congruence|].
      reflexivity.
  - repeat split; try discriminate.
    exists [FromEnv]. split; reflexivity.
Qed.

Lemma init_invalid_url_witness :
  let made := __init__ Scenario.calm "not a url" "myregistry.io"
                ["app/service:v1"] "eu-central-1" (Some "aws") false [] in
  made = ({| self := fresh "myregistry.io" ["app/service:v1"] "eu-central-1"
                       (Some "aws") false;
             log := [FromEnv; invalid_url_message] |}, Ok tt)
  /\ copy_images Scenario.calm (fst made)
     = (fst made, Raise (AttributeError "from_registry")).
Proof.
  cbn zeta.
  destruct (init_invalid_url Scenario.calm "not a url" "myregistry.io"
              ["app/service:v1"] "eu-central-1" (Some "aws") false [] eq_refl)
    as [_ [_ [_ [_ [_ Hmade]]]]].
  destruct (Hmade eq_refl) as [Heq Hcopy].
  split; [exact Heq|]. apply Hcopy. discriminate.
Defined.

(** The [try] block of [initialize_ecr] handles a parsing error: the error
    is printed and the block ends normally, with the object untouched. *)
Lemma read_aws_credentials_parse_error
    (w : world) (st : state) (message : string) :
  let path := path_join (path_join (home w) ".aws") "credentials" in
  config_read w (log st) path = Raise (ParsingError message) ->
  read_aws_credentials w st
  = ({| self := self st;
        log := (log st ++ [ReadConfig path; Secho (PError message) "red"])%list |},
     Ok tt).
Proof.
  cbn zeta. intros Hread. unfold read_aws_credentials, try_except_ParsingError.
  run. rewrite Hread. run. rewrite <- app_assoc. reflexivity.
Qed.

(** C8, as the code has it.  On AWS, when reading the credentials file
    raises a parsing error, that error does not leave the constructor: it is
    printed, the access-key and secret-key attributes stay unset, and the run
    goes on to the token request, made with both keys unset.  What follows
    is not guarded: the constructor returns normally exactly when the
    request and the decoding of its answer succeed (the credentials are then
    AWS, the decoded password and the destination registry), and raises the
    exception of the first of these steps that fails. *)
Theorem init_aws_parse_error_is_handled
    (w : world) (from_url to_url : string) (images : list string)
    (region : string) (verbose : bool) (history : list event)
    (message : string) :
  let path := path_join (path_join (home w) ".aws") "credentials" in
  let before := (history ++ [FromEnv; Echo (PImages images)])%list in
  let reported :=
    (before ++ [ReadConfig path; Secho (PError message) "red"])%list in
  let made := __init__ w from_url to_url images region (Some "aws") verbose
                history in
  docker_from_env w history = Ok tt ->
  validators_url w from_url = true ->
  config_read w before path = Raise (ParsingError message) ->
  (exists tail,
      log (fst made) = (reported ++ EcrToken None None region :: tail)%list)
  /\ aws_access_key_id (self (fst made)) = None
  /\ aws_access_secret_key (self (fst made)) = None
  /\ snd made
     = match ecr_password w reported None None region with
       | Ok _ => Ok tt
       | Raise e => Raise e
       end
  /\ (forall password,
        ecr_password w reported None None region = Ok password ->
        credentials (self (fst made))
        = (Some "AWS", Some password, Some to_url)).
Proof.
  cbn zeta. intros Hclient Hvalid Hread.
  rewrite (init_valid_unfold _ _ _ _ _ _ _ _ Hclient Hvalid).
  change (cloud_is "aws" (fresh to_url images region (Some "aws") verbose))
    with true. cbv iota.
  match goal with
  | |- context [initialize_ecr w ?s] => set (st1 := s)
  end.
  pose proof (read_aws_credentials_parse_error w st1 message Hread) as Htry.
  cbn zeta in Htry.
  unfold initialize_ecr. rewrite (bind_ok _ _ _ _ _ Htry).
  unfold ecr_password. subst st1. run.
  destruct (ecr_authorization_data w _ None None region)
    as [ecr_credentials|e1]; run;
    [destruct (getitem ecr_credentials "authorizationToken")
       as [token|e2]; run;
     [destruct (b64decode w token) as [decoded|e3]; run;
      [destruct (utf8_decode w (PyStr.replace "AWS:" "" decoded))
         as [password|e4]; run|]|]|];
    (split; [eexists; rewrite <- !app_assoc; reflexivity|]);
    (split; [reflexivity|]); (split; [reflexivity|]);
    (split; [reflexivity|]); intros pw Hpw; try discriminate.
  injection Hpw as <-. reflexivity.
Qed.

Lemma init_aws_parse_error_is_handled_witness :
  let made := __init__ Scenario.malformed_credentials
                "https://registry.example.com"
                "123456789012.dkr.ecr.eu-central-1.amazonaws.com/cek"
                ["app/service:v1"] "eu-central-1" (Some "aws") false [] in
  snd made = Ok tt
  /\ aws_access_key_id (self (fst made)) = None
  /\ aws_access_secret_key (self (fst made)) = None
  /\ credentials (self (fst made))
     = (Some "AWS", Some "token",
        Some "123456789012.dkr.ecr.eu-central-1.amazonaws.com/cek").
Proof.
  cbn zeta.
  destruct (init_aws_parse_error_is_handled Scenario.malformed_credentials
              "https://registry.example.com"
              "123456789012.dkr.ecr.eu-central-1.amazonaws.com/cek"
              ["app/service:v1"] "eu-central-1" false []
              "Source contains parsing errors" eq_refl eq_refl eq_refl)
    as [_ [Hkey [Hsecret [Hret Hcred]]]].
  split; [exact Hret|]. split; [exact Hkey|]. split; [exact Hsecret|].
  apply (Hcred "token"). reflexivity.
Defined.

(** C8 as stated fails: with a credentials file that does not parse and a
    token request that is refused, the parsing error is printed and the
    keys stay unset, but the constructor raises (the exception of the
    request) and the run does not continue. *)
Lemma init_aws_parse_error_then_refused_token_raises :
  let made := __init__ Scenario.malformed_credentials_no_token
                "https://registry.example.com"
                "123456789012.dkr.ecr.eu-central-1.amazonaws.com/cek"
                ["app/service:v1"] "eu-central-1" (Some "aws") false [] in
  snd made = Raise (ExternalError "NoCredentialsError")
  /\ log (fst made)
     = [FromEnv; Echo (PImages ["app/service:v1"]);
        ReadConfig "/home/user/.aws/credentials";
        Secho (PError "Source contains parsing errors") "red";
        EcrToken None None "eu-central-1"]
  /\ aws_access_key_id (self (fst made)) = None
  /\ aws_access_secret_key (self (fst made)) = None.
Proof. cbn zeta. repeat split; reflexivity. Qed.

(** *** The stored source registry *)

Section FromRegistryKept.

Lemma KeepsSource_ret {A} (a : A) : KeepsSource (ret a).
Proof. intros st. reflexivity. Qed.

Lemma KeepsSource_lift {A} (r : result A) : KeepsSource (lift r).
Proof. intros st. reflexivity. Qed.

Lemma KeepsSource_this : KeepsSource this.
Proof. intros st. reflexivity. Qed.

Lemma KeepsSource_external {A} (e : event) (answer : list event -> result A) :
  KeepsSource (external e answer).
Proof. intros st. reflexivity. Qed.

Lemma KeepsSource_assign (f : obj -> obj) :
  (forall o, from_registry (f o) = from_registry o) -> KeepsSource (assign f).
Proof. intros Hf st. cbn. apply Hf. Qed.

Lemma KeepsSource_bind {A B} (m : M A) (k : A -> M B) :
  KeepsSource m -> (forall a, KeepsSource (k a)) -> KeepsSource (bind m k).
Proof.
  intros Hm Hk st. unfold bind. specialize (Hm st).
  destruct (m st) as [st1 [a|e]]; cbn in *.
  - rewrite Hk. exact Hm.
  - exact Hm.
Qed.

Lemma KeepsSource_try (body : M unit) (handler : string -> M unit) :
  KeepsSource body -> (forall message, KeepsSource (handler message)) ->
  KeepsSource (try_except_ParsingError body handler).
Proof.
  intros Hb Hh st. unfold try_except_ParsingError. specialize (Hb st).
  destruct (body st) as [st1 [[]|e]]; cbn in *; [exact Hb|].
  destruct e; try exact Hb. rewrite Hh. exact Hb.
Qed.

End FromRegistryKept.

Ltac keeps_source :=
  repeat first
    [ apply KeepsSource_ret | apply KeepsSource_lift | apply KeepsSource_this
    | apply KeepsSource_external
    | apply KeepsSource_assign; intros ?; reflexivity
    | apply KeepsSource_try | apply KeepsSource_bind | intros ? ].

Lemma initialize_ecr_KeepsSource (w : world) : KeepsSource (initialize_ecr w).
Proof. unfold initialize_ecr, read_aws_credentials, secho. keeps_source. Qed.

Lemma initialize_acr_KeepsSource (w : world) : KeepsSource (initialize_acr w).
Proof. unfold initialize_acr. keeps_source. Qed.

Lemma substring_all (s : string) : String.substring 0 (String.length s) s = s.
Proof. induction s as [|c s IH]; cbn; congruence. Qed.

(** What line 57 stores for a valid URL, whatever the credential path does
    afterwards: the value of [str.replace].  It is the URL without its
    leading https:// when that is the only occurrence, and the URL itself
    when there is none. *)
Lemma init_stored_source_registry
    (w : world) (from_url to_url : string) (images : list string)
    (region : string) (cloud_kind : option string) (verbose : bool)
    (history : list event) :
  docker_from_env w history = Ok tt ->
  validators_url w from_url = true ->
  let stored :=
    from_registry
      (self (fst (__init__ w from_url to_url images region cloud_kind verbose
                    history))) in
  stored = Some (PyStr.replace "https://" "" from_url)
  /\ (forall rest,
        from_url = "https://" ++ rest ->
        PyStr.contains "https://" rest = false ->
        stored = Some (strip_leading_https from_url))
  /\ (PyStr.contains "https://" from_url = false ->
      stored = Some (strip_leading_https from_url)).
Proof.
  intros Hclient Hvalid. cbn zeta.
  rewrite (init_valid_unfold _ _ _ _ _ _ _ _ Hclient Hvalid).
  match goal with
  | |- context [from_registry (self (fst (?m ?st)))] =>
      assert (HK : KeepsSource m);
      [|rewrite (HK st); cbn [self set_from_registry from_registry]]
  end.
  { destruct (cloud_is "aws" _); [apply initialize_ecr_KeepsSource|].
    destruct (cloud_is "azure" _);
      [apply initialize_acr_KeepsSource | apply KeepsSource_ret]. }
  split; [reflexivity|]. split.
  - intros rest -> Hnone.
    rewrite PyStrFacts.replace_leading by discriminate.
    rewrite (PyStrFacts.replace_absent _ _ _ Hnone).
    unfold strip_leading_https.
    replace (PyStr.startswith "https://" ("https://" ++ rest)) with true
      by (symmetry; apply PyStrFacts.startswith_true_iff; now exists rest).
    cbn. rewrite Nat.sub_0_r, substring_all. reflexivity.
  - intros Hnone. rewrite (PyStrFacts.replace_absent _ _ _ Hnone).
    unfold strip_leading_https.
    destruct (PyStr.startswith "https://" from_url) eqn:Hstart; [|reflexivity].
    apply PyStrFacts.startswith_true_iff in Hstart as [rest ->].
    assert (Hc : PyStr.contains "https://" ("https://" ++ rest) = true).
    { apply PyStrFacts.contains_true_iff. exists "", rest. reflexivity. }
    congruence.
Qed.

(** C3.  The constructor on a valid URL that contains https:// a second
    time: line 57 removes that occurrence as well, so the stored registry is
    not the input with only its leading prefix stripped, which is what the
    property asks for. *)
Theorem init_removes_inner_https :
  let url := "https://mirror.example.com/https://registry.example.com" in
  let stored :=
    from_registry
      (self (fst (__init__ Scenario.calm url "myregistry.io"
                    ["app/service:v1"] "eu-central-1" None false []))) in
  validators_url Scenario.calm url = true
  /\ strip_leading_https url
     = "mirror.example.com/https://registry.example.com"
  /\ stored = Some "mirror.example.com/registry.example.com"
  /\ stored <> Some (strip_leading_https url).
Proof.
  cbn zeta. repeat split; try reflexivity. discriminate.
Qed.

(** ** Further properties of the class *)

(** *** Splitting strings *)

Lemma split_first_piece (sep : ascii) (s : string) :
  forallb_string (fun c => negb (Ascii.eqb c sep)) (fst (PyStr.split sep s))
  = true
  /\ PyStr.startswith (fst (PyStr.split sep s)) s = true.
Proof.
  induction s as [|c s [IH1 IH2]]; [split; reflexivity|].
  cbn [PyStr.split]. destruct (PyStr.split sep s) as [hd tl]. cbn in IH1, IH2.
  destruct (Ascii.eqb c sep) eqn:Hc; cbn.
  - split; reflexivity.
  - rewrite Hc, IH1, Ascii.eqb_refl, IH2. split; reflexivity.
Qed.

Lemma split_without_separator (sep : ascii) (s : string) :
  forallb_string (fun c => negb (Ascii.eqb c sep)) s = true ->
  PyStr.split sep s = (s, []).
Proof.
  induction s as [|c s IH]; [reflexivity|]. cbn.
  intros H. apply andb_true_iff in H as [Hc Hs].
  rewrite (IH Hs). apply negb_true_iff in Hc. now rewrite Hc.
Qed.

Lemma split_list_app (sep : ascii) (a b : string) :
  PyStr.split_list sep (a ++ String sep b)
  = (PyStr.split_list sep a ++ PyStr.split_list sep b)%list.
Proof.
  unfold PyStr.split_list. induction a as [|c a IH]; cbn.
  - destruct (PyStr.split sep b) as [hd tl]. now rewrite Ascii.eqb_refl.
  - destruct (PyStr.split sep (a ++ String sep b)) as [hd tl].
    destruct (PyStr.split sep a) as [hd' tl'].
    destruct (PyStr.split sep b) as [hd'' tl''].
    injection IH as -> ->.
    destruct (Ascii.eqb c sep); reflexivity.
Qed.

(** *** The Azure credential path *)

Lemma az_command_argv (name : string) :
  PyStr.split_list " " ("az acr login --name " ++ name ++ " --expose-token")
  = (["az"; "acr"; "login"; "--name"] ++ PyStr.split_list " " name
       ++ ["--expose-token"])%list.
Proof.
  change ("az acr login --name " ++ name ++ " --expose-token")
    with ("az acr login --name" ++ String " " (name ++ String " " "--expose-token")).
  rewrite !split_list_app. reflexivity.
Qed.

(** X1.  [initialize_acr] runs exactly one command, whatever happens next.
    Its arguments are az acr login --name, then the registry name split at
    its spaces, then --expose-token; the registry name is the part of
    [to_registry] before its first dot (it starts [to_registry] and contains
    no dot).  When that name has no space the command has the six expected
    arguments. *)
Theorem initialize_acr_command (w : world) (st : state) :
  let name := fst (PyStr.split "." (to_registry (self st))) in
  let argv :=
    (["az"; "acr"; "login"; "--name"] ++ PyStr.split_list " " name
       ++ ["--expose-token"])%list in
  log (fst (initialize_acr w st)) = (log st ++ [Subprocess argv])%list
  /\ PyStr.startswith name (to_registry (self st)) = true
  /\ forallb_string (fun c => negb (Ascii.eqb c ".")) name = true
  /\ (forallb_string (fun c => negb (Ascii.eqb c " ")) name = true ->
      argv = ["az"; "acr"; "login"; "--name"; name; "--expose-token"]).
Proof.
  cbn zeta. split; [|split; [|split]].
  - unfold initialize_acr. run. rewrite az_command_argv.
    destruct (subprocess_stdout w (log st) _) as [stdout|e]; run;
      [|reflexivity].
    destruct (json_access_token w stdout); reflexivity.
  - apply split_first_piece.
  - apply split_first_piece.
  - intros Hspace. unfold PyStr.split_list.
    rewrite (split_without_separator _ _ Hspace). reflexivity.
Qed.

Lemma initialize_acr_command_witness :
  log (fst (initialize_acr Scenario.calm
              (Scenario.start (Scenario.azure_job []))))
  = [Subprocess ["az"; "acr"; "login"; "--name"; "cekregistry";
                 "--expose-token"]].
Proof.
  destruct (initialize_acr_command Scenario.calm
              (Scenario.start (Scenario.azure_job [])))
    as [Hlog [_ [_ Hargv]]].
  rewrite Hlog, (Hargv eq_refl). reflexivity.
Defined.

(** X2.  When the command and the parsing of its output succeed,
    [initialize_acr] sets the destination credentials to the fixed null-GUID
    username, the access token as password and [to_registry] as registry URL,
    and changes nothing else. *)
Theorem initialize_acr_sets_credentials
    (w : world) (st : state) (stdout access_token : string) :
  let argv :=
    PyStr.split_list " "
      ("az acr login --name " ++ fst (PyStr.split "." (to_registry (self st)))
         ++ " --expose-token") in
  subprocess_stdout w (log st) argv = Ok stdout ->
  json_access_token w stdout = Ok access_token ->
  let st' := fst (initialize_acr w st) in
  snd (initialize_acr w st) = Ok tt
  /\ credentials (self st')
     = (Some "00000000-0000-0000-0000-000000000000", Some access_token,
        Some (to_registry (self st)))
  /\ self st'
     = set_cr_url (Some (to_registry (self st)))
         (set_cr_username (Some "00000000-0000-0000-0000-000000000000")
            (set_cr_password (Some access_token) (self st))).
Proof.
  cbn zeta. intros Hrun Hjson. unfold initialize_acr. run.
  rewrite Hrun. run. rewrite Hjson. run. repeat split.
Qed.

Lemma initialize_acr_sets_credentials_witness :
  credentials
    (self (fst (initialize_acr Scenario.calm
                  (Scenario.start (Scenario.azure_job [])))))
  = (Some "00000000-0000-0000-0000-000000000000", Some "acr-token",
     Some "cekregistry.azurecr.io").
Proof.
  apply (initialize_acr_sets_credentials Scenario.calm
           (Scenario.start (Scenario.azure_job []))
           "{accessToken: acr-token}" "acr-token");
    reflexivity.
Defined.

(** X3.  [initialize_acr] is all or nothing: when it raises (the command
    fails, or its output does not yield a token), the object is exactly as
    before, so no destination credential is set. *)
Theorem initialize_acr_failure_changes_nothing
    (w : world) (st : state) (e : exn) :
  snd (initialize_acr w st) = Raise e ->
  self (fst (initialize_acr w st)) = self st.
Proof.
  unfold initialize_acr. run.
  destruct (subprocess_stdout w (log st) _) as [stdout|e1]; run;
    [|reflexivity].
  destruct (json_access_token w stdout); run; [discriminate|reflexivity].
Qed.

Lemma initialize_acr_failure_changes_nothing_witness :
  self (fst (initialize_acr
               (Scenario.with_subprocess_stdout
                  (Raise (ExternalError "az: command not found"))
                  Scenario.calm)
               (Scenario.start (Scenario.azure_job []))))
  = Scenario.azure_job [].
Proof.
  apply (initialize_acr_failure_changes_nothing
           (Scenario.with_subprocess_stdout
              (Raise (ExternalError "az: command not found")) Scenario.calm)
           (Scenario.start (Scenario.azure_job []))
           (ExternalError "az: command not found")).
  reflexivity.
Defined.

(** *** The AWS credential path *)

Lemma getitem_raise {V} (d : list (string * V)) (key : string) (e : exn) :
  getitem d key = Raise e -> e = KeyError key.
Proof.
  induction d as [|[k v] d IH]; cbn.
  - congruence.
  - destruct (String.eqb k key); [discriminate|exact IH].
Qed.

Lemma ends_with_slash_app (a b : string) :
  b <> "" -> ends_with_slash (a ++ b) = ends_with_slash b.
Proof.
  intros Hb. induction a as [|c a IH]; [reflexivity|].
  cbn [append ends_with_slash].
  destruct (a ++ b) eqn:Hab; [|exact IH].
  destruct a; [cbn in Hab; contradiction | discriminate].
Qed.

(** X4.  The credentials file that [initialize_ecr] reads is
    [home/.aws/credentials] for a home directory that is not empty and does
    not end with a slash; the read is its first call. *)
Theorem initialize_ecr_reads_home_credentials (w : world) (st : state) :
  home w <> "" ->
  ends_with_slash (home w) = false ->
  exists tail,
    log (fst (initialize_ecr w st))
    = (log st ++ ReadConfig (home w ++ "/.aws/credentials") :: tail)%list.
Proof.
  intros Hne Hslash.
  assert (Hpath : path_join (path_join (home w) ".aws") "credentials"
                  = home w ++ "/.aws/credentials").
  { unfold path_join. cbn [PyStr.startswith Ascii.eqb Bool.eqb andb].
    destruct (String.eqb_spec (home w) ""); [contradiction|].
    rewrite Hslash. cbn [orb].
    assert (H1 : (home w ++ "/" ++ ".aws" =? "")%string = false).
    { destruct (home w); [contradiction|reflexivity]. }
    assert (H2 : ends_with_slash (home w ++ "/" ++ ".aws") = false).
    { rewrite ends_with_slash_app by discriminate. reflexivity. }
    rewrite H1, H2. cbn [orb].
    rewrite PyStrFacts.append_assoc. reflexivity. }
  unfold initialize_ecr. unfold bind at 1.
  destruct (read_aws_credentials w st) as [st1 r] eqn:Hread.
  assert (Hfirst : exists tail,
             log st1 = (log st ++ ReadConfig (home w ++ "/.aws/credentials")
                          :: tail)%list).
  { revert Hread. unfold read_aws_credentials, try_except_ParsingError.
    rewrite Hpath. run.
    destruct (config_read w (log st) _) as [cfg|e]; run;
      [destruct (getitem cfg "default") as [section|e]; run;
       [destruct (getitem section "aws_access_key_id") as [key|e]; run;
        [destruct (getitem section "aws_secret_access_key") as [secret|e];
         run|]|]|];
      try destruct e; run;
      intros [= <- _]; eexists; rewrite <- ?app_assoc; reflexivity. }
  destruct Hfirst as [tail Htail].
  destruct r as [[]|e]; [|exists tail; exact Htail].
  run.
  destruct (ecr_authorization_data w (log st1) _ _ _)
    as [ecr_credentials|e]; run;
    [destruct (getitem ecr_credentials "authorizationToken") as [token|e];
     run;
     [destruct (b64decode w token) as [decoded|e]; run;
      [destruct (utf8_decode w _) as [password|e]; run|]|]|];
    rewrite Htail, <- app_assoc; eexists; reflexivity.
Qed.

Lemma initialize_ecr_reads_home_credentials_witness :
  exists tail,
    log (fst (initialize_ecr Scenario.calm
                (Scenario.start (Scenario.aws_uninitialized []))))
    = ([] ++ ReadConfig ("/home/user" ++ "/.aws/credentials") :: tail)%list.
Proof.
  apply (initialize_ecr_reads_home_credentials Scenario.calm
           (Scenario.start (Scenario.aws_uninitialized []))).
  - discriminate.
  - reflexivity.
Defined.

(** X5.  With a credentials file whose [default] section holds both keys,
    [initialize_ecr] stores them, requests the token with exactly these keys
    and the configured region, and, for a token that decodes to AWS: followed
    by a password in which AWS: does not occur, sets the destination
    credentials to the username AWS, that password and [to_registry]. *)
Theorem initialize_ecr_sets_credentials
    (w : world) (st : state) (cfg : config) (section : list (string * string))
    (ecr_credentials : list (string * string))
    (key secret token raw password : string) :
  let path := path_join (path_join (home w) ".aws") "credentials" in
  let request := EcrToken (Some key) (Some secret) (aws_region (self st)) in
  config_read w (log st) path = Ok cfg ->
  getitem cfg "default" = Ok section ->
  getitem section "aws_access_key_id" = Ok key ->
  getitem section "aws_secret_access_key" = Ok secret ->
  ecr_authorization_data w (log st ++ [ReadConfig path])%list
    (Some key) (Some secret) (aws_region (self st)) = Ok ecr_credentials ->
  getitem ecr_credentials "authorizationToken" = Ok token ->
  b64decode w token = Ok ("AWS:" ++ raw) ->
  PyStr.contains "AWS:" raw = false ->
  utf8_decode w raw = Ok password ->
  initialize_ecr w st
  = ({| self :=
          set_cr_url (Some (to_registry (self st)))
            (set_cr_password (Some password)
               (set_cr_username (Some "AWS")
                  (set_aws_access_secret_key (Some secret)
                     (set_aws_access_key_id (Some key) (self st)))));
        log := (log st ++ [ReadConfig path; request])%list |},
     Ok tt).
Proof.
  cbn zeta. intros Hread Hsection Hkey Hsecret Hdata Htoken Hb64 Hclean Hutf8.
  unfold initialize_ecr, read_aws_credentials, try_except_ParsingError.
  run. rewrite Hread. run. rewrite Hsection. run. rewrite Hkey. run.
  rewrite Hsecret. run. rewrite Hdata. run. rewrite Htoken. run.
  rewrite Hb64. run.
  rewrite PyStrFacts.replace_leading by discriminate.
  rewrite (PyStrFacts.replace_absent _ _ _ Hclean). cbn [append].
  rewrite Hutf8. run. rewrite <- app_assoc. reflexivity.
Qed.

Lemma initialize_ecr_sets_credentials_witness :
  credentials
    (self (fst (initialize_ecr Scenario.calm
                  (Scenario.start (Scenario.aws_uninitialized [])))))
  = (Some "AWS", Some "token",
     Some "123456789012.dkr.ecr.eu-central-1.amazonaws.com/cek").
Proof.
  rewrite (initialize_ecr_sets_credentials Scenario.calm
             (Scenario.start (Scenario.aws_uninitialized []))
             [("default", [("aws_access_key_id", "AKIAEXAMPLE");
                           ("aws_secret_access_key", "secret")])]
             [("aws_access_key_id", "AKIAEXAMPLE");
              ("aws_secret_access_key", "secret")]
             [("authorizationToken", "QVdTOnRva2Vu");
              ("proxyEndpoint",
               "https://123456789012.dkr.ecr.eu-central-1.amazonaws.com")]
             "AKIAEXAMPLE" "secret" "QVdTOnRva2Vu" "token" "token"
             eq_refl eq_refl eq_refl eq_refl eq_refl eq_refl eq_refl eq_refl
             eq_refl).
  reflexivity.
Defined.

(** X6.  A credentials file that parses but lacks the [default] section
    (as an absent file does) or the access key id makes [initialize_ecr]
    raise the [KeyError] of the missing name.  It is not handled: no token
    is requested and the object is left exactly as it was. *)
Theorem initialize_ecr_missing_key_raises
    (w : world) (st : state) (cfg : config) (e : exn) :
  let path := path_join (path_join (home w) ".aws") "credentials" in
  config_read w (log st) path = Ok cfg ->
  match getitem cfg "default" with
  | Ok section => getitem section "aws_access_key_id"
  | Raise e' => Raise e'
  end = Raise e ->
  initialize_ecr w st
  = ({| self := self st; log := (log st ++ [ReadConfig path])%list |}, Raise e)
  /\ (e = KeyError "default" \/ e = KeyError "aws_access_key_id").
Proof.
  cbn zeta. intros Hread Hmissing.
  unfold initialize_ecr, read_aws_credentials, try_except_ParsingError.
  run. rewrite Hread. run.
  destruct (getitem cfg "default") as [section|e1] eqn:Hsection; run.
  - rewrite Hmissing. run. apply getitem_raise in Hmissing. subst e.
    split; [reflexivity|now right].
  - injection Hmissing as <-. apply getitem_raise in Hsection. subst e1.
    split; [reflexivity|now left].
Qed.

Lemma initialize_ecr_missing_key_raises_witness :
  initialize_ecr (Scenario.with_config_read (Ok []) Scenario.calm)
    (Scenario.start (Scenario.aws_uninitialized []))
  = ({| self := Scenario.aws_uninitialized [];
        log := [ReadConfig "/home/user/.aws/credentials"] |},
     Raise (KeyError "default")).
Proof.
  apply (initialize_ecr_missing_key_raises
           (Scenario.with_config_read (Ok []) Scenario.calm)
           (Scenario.start (Scenario.aws_uninitialized []))
           [] (KeyError "default") eq_refl eq_refl).
Defined.

(** X7.  When only the secret key is missing from the [default] section,
    [initialize_ecr] raises its [KeyError] after the access key id has been
    stored: the object keeps the id with no secret, and no token is
    requested. *)
Theorem initialize_ecr_missing_secret_keeps_key_id
    (w : world) (st : state) (cfg : config) (section : list (string * string))
    (key : string) (e : exn) :
  let path := path_join (path_join (home w) ".aws") "credentials" in
  config_read w (log st) path = Ok cfg ->
  getitem cfg "default" = Ok section ->
  getitem section "aws_access_key_id" = Ok key ->
  getitem section "aws_secret_access_key" = Raise e ->
  initialize_ecr w st
  = ({| self := set_aws_access_key_id (Some key) (self st);
        log := (log st ++ [ReadConfig path])%list |},
     Raise (KeyError "aws_secret_access_key")).
Proof.
  cbn zeta. intros Hread Hsection Hkey Hsecret.
  unfold initialize_ecr, read_aws_credentials, try_except_ParsingError.
  run. rewrite Hread. run. rewrite Hsection. run. rewrite Hkey. run.
  rewrite Hsecret. run. apply getitem_raise in Hsecret. now subst e.
Qed.

Lemma initialize_ecr_missing_secret_keeps_key_id_witness :
  initialize_ecr
    (Scenario.with_config_read
       (Ok [("default", [("aws_access_key_id", "AKIAEXAMPLE")])])
       Scenario.calm)
    (Scenario.start (Scenario.aws_uninitialized []))
  = ({| self := set_aws_access_key_id (Some "AKIAEXAMPLE")
                  (Scenario.aws_uninitialized []);
        log := [ReadConfig "/home/user/.aws/credentials"] |},
     Raise (KeyError "aws_secret_access_key")).
Proof.
  apply (initialize_ecr_missing_secret_keeps_key_id
           (Scenario.with_config_read
              (Ok [("default", [("aws_access_key_id", "AKIAEXAMPLE")])])
              Scenario.calm)
           (Scenario.start (Scenario.aws_uninitialized []))
           [("default", [("aws_access_key_id", "AKIAEXAMPLE")])]
           [("aws_access_key_id", "AKIAEXAMPLE")]
           "AKIAEXAMPLE" (KeyError "aws_secret_access_key")
           eq_refl eq_refl eq_refl eq_refl).
Defined.

(** X8.  [initialize_ecr] is not all or nothing: when the token request
    has returned but its answer holds no token or the token cannot be
    decoded, it raises with the username already set to AWS while password
    and registry URL are as before.  On an object whose credentials were
    unset this leaves them incomplete. *)
Theorem initialize_ecr_undecodable_token
    (w : world) (st st1 : state) (ecr_credentials : list (string * string))
    (e : exn) :
  read_aws_credentials w st = (st1, Ok tt) ->
  ecr_authorization_data w (log st1) (aws_access_key_id (self st1))
    (aws_access_secret_key (self st1)) (aws_region (self st1))
  = Ok ecr_credentials ->
  match getitem ecr_credentials "authorizationToken" with
  | Ok token =>
      match b64decode w token with
      | Ok decoded => utf8_decode w (PyStr.replace "AWS:" "" decoded)
      | Raise e' => Raise e'
      end
  | Raise e' => Raise e'
  end = Raise e ->
  let st' := fst (initialize_ecr w st) in
  snd (initialize_ecr w st) = Raise e
  /\ self st' = set_cr_username (Some "AWS") (self st1)
  /\ (cr_password (self st1) = None -> incomplete_credentials (self st')).
Proof.
  cbn zeta. intros Hread Hdata Hdecode.
  unfold initialize_ecr. rewrite (bind_ok _ _ _ _ _ Hread). run.
  rewrite Hdata. run.
  destruct (getitem ecr_credentials "authorizationToken") as [token|e0]; run.
  - destruct (b64decode w token) as [decoded|e1]; run.
    + rewrite Hdecode. run. repeat split.
      intros Hnone. right. right. exact Hnone.
    + injection Hdecode as <-. repeat split.
      intros Hnone. right. right. exact Hnone.
  - injection Hdecode as <-. repeat split.
    intros Hnone. right. right. exact Hnone.
Qed.

Lemma initialize_ecr_undecodable_token_witness :
  let made := initialize_ecr
                (Scenario.with_b64decode
                   (Raise (ExternalError "Incorrect padding")) Scenario.calm)
                (Scenario.start (Scenario.aws_uninitialized [])) in
  snd made = Raise (ExternalError "Incorrect padding")
  /\ credentials (self (fst made)) = (Some "AWS", None, None).
Proof.
  cbn zeta.
  destruct (initialize_ecr_undecodable_token
              (Scenario.with_b64decode
                 (Raise (ExternalError "Incorrect padding")) Scenario.calm)
              (Scenario.start (Scenario.aws_uninitialized []))
              (fst (read_aws_credentials
                      (Scenario.with_b64decode
                         (Raise (ExternalError "Incorrect padding"))
                         Scenario.calm)
                      (Scenario.start (Scenario.aws_uninitialized []))))
              [("authorizationToken", "QVdTOnRva2Vu");
               ("proxyEndpoint",
                "https://123456789012.dkr.ecr.eu-central-1.amazonaws.com")]
              (ExternalError "Incorrect padding")
              eq_refl eq_refl eq_refl) as [Hret [Hself _]].
  split; [exact Hret|]. rewrite Hself. reflexivity.
Defined.

(** *** The registry client *)

(** X9.  After a successful authenticated push, [push_image] prints the push
    log exactly when [show_log] is false; with [show_log] set the log is
    not printed. *)
Theorem push_image_prints_log_unless_show_log
    (w : world) (st : state) (image_repo tg r u p push_log : string) :
  docker_login w (log st ++ [banner])%list (Some u) (Some p) r = Ok tt ->
  images_push w (log st ++ [banner; Login (Some u) (Some p) r])%list
    image_repo tg (Some (u, p)) = Ok push_log ->
  push_image w image_repo tg (Some r) (Some u) (Some p) st
  = ({| self := self st;
        log := (log st
                  ++ [banner; Login (Some u) (Some p) r;
                      Push image_repo tg (Some (u, p))]
                  ++ (if show_log (self st) then []
                      else [Echo (PLog push_log)]))%list |},
     Ok tt).
Proof.
  intros Hlogin Hpush. unfold push_image, banner in *. run.
  rewrite Hlogin. run. rewrite <- app_assoc. cbn [app].
  rewrite Hpush. run.
  destruct (show_log (self st)); run; rewrite <- !app_assoc; reflexivity.
Qed.

Lemma push_image_prints_log_unless_show_log_witness :
  push_image Scenario.calm "myregistry.io/app" "latest"
    (Some "myregistry.io") (Some "user") (Some "pass")
    (Scenario.start (Scenario.generic_job []))
  = ({| self := Scenario.generic_job [];
        log := [banner; Login (Some "user") (Some "pass") "myregistry.io";
                Push "myregistry.io/app" "latest" (Some ("user", "pass"));
                Echo (PLog "pushed")] |},
     Ok tt).
Proof.
  apply (push_image_prints_log_unless_show_log Scenario.calm
           (Scenario.start (Scenario.generic_job []))
           "myregistry.io/app" "latest" "myregistry.io" "user" "pass"
           "pushed");
    reflexivity.
Defined.

(** X10.  A failed login stops the operation it precedes.  In [push_image]
    the exception of the login leaves the method before any push; in
    [pull_image] called with a username or a password it leaves the method
    before the fetch. *)
Theorem login_failure_stops_transfer
    (w : world) (st : state) (e : exn) :
  (forall image_repo tg r u p,
      docker_login w (log st ++ [banner])%list (Some u) (Some p) r = Raise e ->
      push_image w image_repo tg (Some r) (Some u) (Some p) st
      = ({| self := self st;
            log := (log st ++ [banner; Login (Some u) (Some p) r])%list |},
         Raise e))
  /\ (forall registry_url image_name username password,
      username <> None \/ password <> None ->
      docker_login w (log st) username password registry_url = Raise e ->
      pull_image w registry_url image_name username password st
      = ({| self := self st;
            log := (log st ++ [Login username password registry_url])%list |},
         Raise e)).
Proof.
  split.
  - intros image_repo tg r u p Hlogin. unfold push_image, banner in *. run.
    rewrite Hlogin. run. rewrite <- app_assoc. reflexivity.
  - intros registry_url image_name username password Hsome Hlogin.
    unfold pull_image.
    assert (Hc : negb (is_None username && is_None password) = true).
    { destruct username, password; try reflexivity.
      destruct Hsome as [H|H]; congruence. }
    rewrite Hc. run. rewrite Hlogin. reflexivity.
Qed.

Lemma login_failure_stops_transfer_witness :
  push_image
    (Scenario.with_docker_login (Raise (ExternalError "unauthorized"))
       Scenario.calm)
    "myregistry.io/app" "latest" (Some "myregistry.io") (Some "user")
    (Some "pass") (Scenario.start (Scenario.generic_job []))
  = ({| self := Scenario.generic_job [];
        log := [banner; Login (Some "user") (Some "pass") "myregistry.io"] |},
     Raise (ExternalError "unauthorized"))
  /\ pull_image
       (Scenario.with_docker_login (Raise (ExternalError "unauthorized"))
          Scenario.calm)
       "registry.example.com" "app/service:v1" (Some "user") None
       (Scenario.start (Scenario.generic_job []))
     = ({| self := Scenario.generic_job [];
           log := [Login (Some "user") None "registry.example.com"] |},
        Raise (ExternalError "unauthorized")).
Proof.
  destruct (login_failure_stops_transfer
              (Scenario.with_docker_login (Raise (ExternalError "unauthorized"))
                 Scenario.calm)
              (Scenario.start (Scenario.generic_job []))
              (ExternalError "unauthorized")) as [Hpush Hpull].
  split.
  - apply Hpush. reflexivity.
  - apply Hpull; [left; discriminate | reflexivity].
Defined.

Lemma tag_image_self (w : world) (image_name registry_old registry_new : string)
    (st : state) :
  self (fst (tag_image w image_name registry_old registry_new st)) = self st.
Proof.
  unfold tag_image. run.
  destruct (images_get w (log st) _) as [img|e]; run; [|reflexivity].
  destruct (cloud_is "aws" (self st)); run;
    destruct (image_tag w _ img _ _) as [[|]|e]; reflexivity.
Qed.

Lemma push_image_self (w : world) (image_repo tg : string)
    (registry username password : option string) (st : state) :
  self (fst (push_image w image_repo tg registry username password st))
  = self st.
Proof.
  unfold push_image. run.
  destruct registry as [r|], username as [u|], password as [p|]; run;
    try reflexivity.
  destruct (docker_login w _ (Some u) (Some p) r) as [[]|e]; run;
    [|reflexivity].
  destruct (images_push w _ image_repo tg _) as [push_log|e]; run;
    [|reflexivity].
  destruct (show_log (self st)); reflexivity.
Qed.

(** X11.  When the local image is not found ([images.get] raises),
    [tag_image] raises that exception without asking the runtime to tag
    anything, and the object is unchanged. *)
Theorem tag_image_image_not_found
    (w : world) (st : state) (image_name registry_old registry_new : string)
    (e : exn) :
  images_get w (log st) (registry_old ++ "/" ++ image_name) = Raise e ->
  tag_image w image_name registry_old registry_new st
  = ({| self := self st;
        log := (log st ++ [Get (registry_old ++ "/" ++ image_name)])%list |},
     Raise e).
Proof.
  intros Hget. unfold tag_image. run. rewrite Hget. reflexivity.
Qed.

Lemma tag_image_image_not_found_witness :
  tag_image
    (Scenario.with_images_get (Raise (ExternalError "ImageNotFound"))
       Scenario.calm)
    "app/service:v1" "registry.example.com" "myregistry.io"
    (Scenario.start (Scenario.generic_job []))
  = ({| self := Scenario.generic_job [];
        log := [Get "registry.example.com/app/service:v1"] |},
     Raise (ExternalError "ImageNotFound")).
Proof.
  apply (tag_image_image_not_found
           (Scenario.with_images_get (Raise (ExternalError "ImageNotFound"))
              Scenario.calm)
           (Scenario.start (Scenario.generic_job []))
           "app/service:v1" "registry.example.com" "myregistry.io"
           (ExternalError "ImageNotFound")).
  reflexivity.
Defined.

(** X12.  [tag_image] returns either [None] or the reference it derived
    from the image name: on AWS the destination registry with the hyphenated
    name as tag, otherwise [registry_new/image_name] with the tag latest.
    It never returns any other reference, and never changes the object. *)
Theorem tag_image_returns_derived_reference
    (w : world) (st st' : state)
    (image_name registry_old registry_new : string)
    (returned : option image_ref) :
  tag_image w image_name registry_old registry_new st = (st', Ok returned) ->
  self st' = self st
  /\ (returned = None
      \/ returned = Some (derived_reference (self st) registry_new image_name)).
Proof.
  intros Hrun. split.
  - pose proof (tag_image_self w image_name registry_old registry_new st) as H.
    rewrite Hrun in H. exact H.
  - revert Hrun. unfold tag_image, derived_reference. run.
    destruct (images_get w (log st) _) as [img|e]; run; [|discriminate].
    destruct (cloud_is "aws" (self st)); run;
      destruct (image_tag w _ img _ _) as [[|]|e]; run;
      intros [= _ <-]; auto.
Qed.

Lemma tag_image_returns_derived_reference_witness :
  let st := Scenario.start (Scenario.generic_job []) in
  let run := tag_image Scenario.calm "app/service:v1" "registry.example.com"
               "myregistry.io" st in
  self (fst run) = self st
  /\ (snd run = Ok None
      \/ snd run
         = Ok (Some {| repository := "myregistry.io/app/service:v1";
                       tag := "latest" |})).
Proof.
  cbn zeta.
  destruct (tag_image_returns_derived_reference Scenario.calm
              (Scenario.start (Scenario.generic_job []))
              (fst (tag_image Scenario.calm "app/service:v1"
                      "registry.example.com" "myregistry.io"
                      (Scenario.start (Scenario.generic_job []))))
              "app/service:v1" "registry.example.com" "myregistry.io"
              (Some {| repository := "myregistry.io/app/service:v1";
                       tag := "latest" |})
              eq_refl) as [Hself _].
  split; [exact Hself | right; reflexivity].
Defined.

(** *** Invariants of the replication loop *)

Section RunsRules.

Context {I : obj -> Prop} {allowed : event -> bool}.

Lemma RunsB_ret {A} (a : A) : RunsB I allowed (ret a).
Proof. intros st H. exists []. cbn. rewrite app_nil_r. auto. Qed.

Lemma RunsB_raise {A} (e : exn) : RunsB I allowed (@raise A e).
Proof. intros st H. exists []. cbn. rewrite app_nil_r. auto. Qed.

Lemma RunsB_external {A} (e : event) (answer : list event -> result A) :
  allowed e = true -> RunsB I allowed (external e answer).
Proof. intros He st H. exists [e]. cbn. auto. Qed.

Lemma RunsB_assign (f : obj -> obj) :
  (forall o, I o -> I (f o)) -> RunsB I allowed (assign f).
Proof. intros Hf st H. exists []. cbn. rewrite app_nil_r. auto. Qed.

Lemma RunsB_bind {A B} (m : M A) (k : A -> M B) :
  RunsB I allowed m -> (forall a, RunsB I allowed (k a)) ->
  RunsB I allowed (bind m k).
Proof.
  intros Hm Hk st H. destruct (Hm st H) as [evs [Hlog [Hall Hinv]]].
  unfold bind. destruct (m st) as [st1 [a|e]]; cbn in *.
  - destruct (Hk a st1 Hinv) as [evs' [Hlog' [Hall' Hinv']]].
    exists (evs ++ evs')%list. rewrite Hlog', Hlog, app_assoc.
    split; [reflexivity|]. split; [|exact Hinv'].
    apply Forall_app. auto.
  - exists evs. auto.
Qed.

Lemma RunsB_this (B : Type) (k : obj -> M B) :
  (forall o, I o -> RunsB I allowed (k o)) -> RunsB I allowed (bind this k).
Proof. intros Hk st H. unfold bind, this. apply (Hk (self st) H st H). Qed.

Lemma get_from_registry_RunsB : RunsB I allowed get_from_registry.
Proof.
  unfold get_from_registry. apply RunsB_this. intros o _.
  destruct (from_registry o); [apply RunsB_ret | apply RunsB_raise].
Qed.

Lemma tag_image_RunsB (w : world)
    (image_name registry_old registry_new : string) :
  (forall reference, allowed (Get reference) = true) ->
  (forall img repo tg, allowed (Tag img repo tg) = true) ->
  RunsB I allowed (tag_image w image_name registry_old registry_new).
Proof.
  intros Hget Htag. unfold tag_image.
  apply RunsB_bind; [apply RunsB_external, Hget|]. intros img.
  apply RunsB_this. intros o _.
  destruct (if cloud_is "aws" o then _ else _) as [target tg].
  apply RunsB_bind; [apply RunsB_external, Htag|].
  intros [|]; apply RunsB_ret.
Qed.

(** What is left of the loop body once the image has been fetched. *)
Lemma copy_image_rest_RunsB (w : world) (image_name : string)
    (rest : M unit) :
  (forall reference, allowed (Get reference) = true) ->
  (forall img repo tg, allowed (Tag img repo tg) = true) ->
  (forall v o, I o -> I (set_tagged_images v o)) ->
  (forall repo tg o,
      I o ->
      RunsB I allowed
        (push_image w repo tg (cr_url o) (cr_username o) (cr_password o))) ->
  rest
  = (registry_old <- get_from_registry ;;
     o <- this ;;
     new_image <- tag_image w image_name registry_old (to_registry o) ;;
     o <- this ;;
     assign (set_tagged_images (tagged_images o ++ [new_image])%list) ;;
     repo <- subscript new_image repository ;;
     tg <- subscript new_image tag ;;
     o <- this ;;
     push_image w repo tg (cr_url o) (cr_username o) (cr_password o)) ->
  RunsB I allowed rest.
Proof.
  intros Hget Htag Hset Hpush ->.
  apply RunsB_bind; [apply get_from_registry_RunsB|]. intros registry_old.
  apply RunsB_this. intros o1 _.
  apply RunsB_bind; [apply tag_image_RunsB; assumption|]. intros new_image.
  apply RunsB_this. intros o2 _.
  apply RunsB_bind; [apply RunsB_assign; intros o; apply Hset|]. intros _.
  apply RunsB_bind.
  { destruct new_image; [apply RunsB_ret | apply RunsB_raise]. }
  intros repo.
  apply RunsB_bind.
  { destruct new_image; [apply RunsB_ret | apply RunsB_raise]. }
  intros tg.
  apply RunsB_this. intros o3 H3. apply Hpush. exact H3.
Qed.

Lemma copy_image_RunsB (w : world) (image_name : string) :
  (forall reference, allowed (Pull reference) = true) ->
  (forall p, allowed (Echo p) = true) ->
  (forall reference, allowed (Get reference) = true) ->
  (forall img repo tg, allowed (Tag img repo tg) = true) ->
  (forall v o, I o -> I (set_tagged_images v o)) ->
  (forall repo tg o,
      I o ->
      RunsB I allowed
        (push_image w repo tg (cr_url o) (cr_username o) (cr_password o))) ->
  RunsB I allowed (copy_image w image_name).
Proof.
  intros Hpull Hecho Hget Htag Hset Hpush. unfold copy_image.
  apply RunsB_bind; [apply get_from_registry_RunsB|]. intros registry_url.
  apply RunsB_bind.
  { unfold pull_image. cbn [is_None andb negb].
    apply RunsB_bind; [apply RunsB_external, Hpull|].
    intros out. apply RunsB_external, Hecho. }
  intros _.
  apply (copy_image_rest_RunsB w image_name); try assumption. reflexivity.
Qed.

Lemma copy_loop_RunsB (w : world) (images : list string) :
  (forall image_name, RunsB I allowed (copy_image w image_name)) ->
  RunsB I allowed (copy_loop w images).
Proof.
  intros Hbody. induction images as [|image_name rest IH]; cbn [copy_loop].
  - apply RunsB_ret.
  - apply RunsB_bind; [apply Hbody | intros _; exact IH].
Qed.

End RunsRules.

Lemma push_image_RunsB (w : world) (I : obj -> Prop) (allowed : event -> bool)
    (image_repo tg : string) (registry username password : option string) :
  (forall p, allowed (Echo p) = true) ->
  (forall u p r, allowed (Login u p r) = true) ->
  (forall repo t auth, allowed (Push repo t auth) = true) ->
  RunsB I allowed (push_image w image_repo tg registry username password).
Proof.
  intros Hecho Hlogin Hpush st H.
  pose proof (push_image_self w image_repo tg registry username password st)
    as Hself.
  assert (Hlog : exists evs,
             log (fst (push_image w image_repo tg registry username password
                         st))
             = (log st ++ evs)%list
             /\ Forall (fun e => allowed e = true) evs).
  { unfold push_image. run.
    destruct registry as [r|], username as [u|], password as [p|]; run;
      try (eexists; split; [reflexivity|repeat constructor; auto]).
    destruct (docker_login w _ (Some u) (Some p) r) as [[]|e]; run;
      [|eexists; split;
        [rewrite <- app_assoc; reflexivity|repeat constructor; auto]].
    destruct (images_push w _ image_repo tg _) as [push_log|e]; run;
      [destruct (show_log (self st)); run|];
      (eexists; split;
       [rewrite <- !app_assoc; reflexivity|repeat constructor; auto]). }
  destruct Hlog as [evs [Hlog Hall]]. exists evs. split; [exact Hlog|].
  split; [exact Hall|now rewrite Hself].
Qed.

Lemma same_job_eq (o o' : obj) :
  same_job o o' -> o' = set_tagged_images (tagged_images o') o.
Proof.
  unfold same_job. destruct o, o'. cbn. intros [= -> -> -> -> -> -> -> -> -> -> ->].
  reflexivity.
Qed.

(** X13.  A run of [copy_images] changes nothing of the object but
    [tagged_images]: cloud kind, region, registries, image list, keys,
    credentials and flags are the same afterwards, whether the run returns or
    raises, and the log only grows. *)
Theorem copy_images_changes_only_tagged_images (w : world) (st : state) :
  let st' := fst (copy_images w st) in
  self st' = set_tagged_images (tagged_images (self st')) (self st)
  /\ exists evs, log st' = (log st ++ evs)%list.
Proof.
  cbn zeta.
  assert (HR : RunsB (same_job (self st)) (fun _ => true) (copy_images w)).
  { unfold copy_images. apply RunsB_this. intros o _.
    apply copy_loop_RunsB. intros image_name.
    apply copy_image_RunsB; try reflexivity.
    - intros v o' Ho. unfold same_job in *. rewrite <- Ho. reflexivity.
    - intros repo tg o' _. apply push_image_RunsB; reflexivity. }
  destruct (HR st eq_refl) as [evs [Hlog [_ Hsame]]].
  split; [apply same_job_eq; exact Hsame | exists evs; exact Hlog].
Qed.

Lemma bind_Ok_inv {A B} (m : M A) (k : A -> M B) (st st' : state) (b : B) :
  bind m k st = (st', Ok b) ->
  exists st1 a, m st = (st1, Ok a) /\ k a st1 = (st', Ok b).
Proof.
  unfold bind. destruct (m st) as [st1 [a|e]]; [|discriminate].
  intros H. now exists st1, a.
Qed.

Lemma get_from_registry_Ok (st st' : state) (r : string) :
  get_from_registry st = (st', Ok r) ->
  st' = st /\ from_registry (self st) = Some r.
Proof.
  unfold get_from_registry. run.
  destruct (from_registry (self st)); run; [|discriminate].
  intros [= <- <-]. auto.
Qed.

(** One image that goes through adds its derived reference to
    [tagged_images] and changes nothing else. *)
Lemma copy_image_Ok (w : world) (image_name : string) (st st' : state) :
  copy_image w image_name st = (st', Ok tt) ->
  self st'
  = set_tagged_images
      (tagged_images (self st)
         ++ [Some (derived_reference (self st) (to_registry (self st))
                     image_name)])%list
      (self st).
Proof.
  unfold copy_image. intros H.
  apply bind_Ok_inv in H as (st1 & r1 & Hget1 & H).
  apply get_from_registry_Ok in Hget1 as [-> _].
  apply bind_Ok_inv in H as (st2 & [] & Hpull & H).
  pose proof (pull_image_self w r1 image_name None None st) as Hself2.
  rewrite Hpull in Hself2. cbn [fst] in Hself2.
  apply bind_Ok_inv in H as (st3 & r2 & Hget2 & H).
  apply get_from_registry_Ok in Hget2 as [-> _].
  apply bind_Ok_inv in H as (st4 & o & Hthis & H).
  injection Hthis as <- <-.
  apply bind_Ok_inv in H as (st5 & new_image & Htag & H).
  apply tag_image_returns_derived_reference in Htag as [Hself5 Hnew].
  apply bind_Ok_inv in H as (st6 & o & Hthis & H).
  injection Hthis as <- <-.
  apply bind_Ok_inv in H as (st7 & [] & Hassign & H).
  injection Hassign as <-.
  apply bind_Ok_inv in H as (st8 & repo & Hrepo & H).
  destruct new_image as [d|]; [|discriminate Hrepo].
  destruct Hnew as [Hnew|Hnew]; [discriminate|]. injection Hnew as ->.
  injection Hrepo as <- <-.
  apply bind_Ok_inv in H as (st9 & tg & Htg & H).
  injection Htg as <- <-.
  apply bind_Ok_inv in H as (st10 & o & Hthis & H).
  injection Hthis as <- <-.
  match type of H with
  | push_image ?w ?a ?b ?c ?d ?e ?s = _ =>
      pose proof (push_image_self w a b c d e s) as Hself'
  end.
  rewrite H in Hself'. cbn [fst self] in Hself'.
  rewrite Hself', Hself5, Hself2. reflexivity.
Qed.

(** X14.  When [copy_images] returns normally, every configured image was
    pulled, tagged and handed to [push_image]: [tagged_images] has grown by
    exactly one reference per image, in the order of the image list, each the
    reference derived from its name, and the rest of the object is as
    before. *)
Theorem copy_images_records_every_image (w : world) (st st' : state) :
  copy_images w st = (st', Ok tt) ->
  self st'
  = set_tagged_images
      (tagged_images (self st)
         ++ List.map
              (fun image_name =>
                 Some (derived_reference (self st) (to_registry (self st))
                         image_name))
              (images_to_replicate (self st)))%list
      (self st).
Proof.
  unfold copy_images. intros H.
  apply bind_Ok_inv in H as (st0 & o & Hthis & H).
  injection Hthis as <- <-.
  generalize dependent st.
  intros st. generalize (images_to_replicate (self st)) as images.
  intros images. revert st.
  induction images as [|image_name rest IH]; intros st H.
  - injection H as <-. cbn [List.map]. rewrite app_nil_r.
    destruct (self st); reflexivity.
  - cbn [copy_loop] in H.
    apply bind_Ok_inv in H as (st1 & [] & Hbody & H).
    apply copy_image_Ok in Hbody. apply IH in H.
    rewrite H, Hbody. cbn [List.map].
    unfold set_tagged_images, derived_reference, cloud_is. cbn.
    rewrite <- app_assoc. reflexivity.
Qed.

Lemma copy_images_records_every_image_witness :
  tagged_images
    (self (fst (copy_images Scenario.calm
                  (Scenario.start
                     (Scenario.aws_job ["app/service:v1"; "db:2"])))))
  = [Some {| repository :=
               "123456789012.dkr.ecr.eu-central-1.amazonaws.com/cek";
             tag := "app-service-v1" |};
     Some {| repository :=
               "123456789012.dkr.ecr.eu-central-1.amazonaws.com/cek";
             tag := "db-2" |}].
Proof.
  rewrite (copy_images_records_every_image Scenario.calm
             (Scenario.start (Scenario.aws_job ["app/service:v1"; "db:2"]))
             (fst (copy_images Scenario.calm
                     (Scenario.start
                        (Scenario.aws_job ["app/service:v1"; "db:2"]))))
             eq_refl).
  reflexivity.
Defined.

(** X15.  The loop stops at the first failure: when the images before one
    went through and the body raises for that one, [copy_images] raises the
    same exception in the state the body left, and nothing is done for the
    images after it. *)
Theorem copy_images_stops_at_first_failure
    (w : world) (st st1 st2 : state) (done rest : list string)
    (image_name : string) (e : exn) :
  images_to_replicate (self st) = (done ++ image_name :: rest)%list ->
  copy_loop w done st = (st1, Ok tt) ->
  copy_image w image_name st1 = (st2, Raise e) ->
  copy_images w st = (st2, Raise e).
Proof.
  intros Himages Hdone Hbody. unfold copy_images.
  rewrite (bind_ok this _ st st (self st) eq_refl).
  rewrite Himages, copy_loop_app.
  rewrite (bind_ok _ _ _ _ _ Hdone). cbn [copy_loop].
  apply bind_raise. exact Hbody.
Qed.

Lemma copy_images_stops_at_first_failure_witness :
  let st := Scenario.start
              (Scenario.generic_job ["app/service:v1"; "db:2"; "cache:7"]) in
  let run := copy_images Scenario.second_pull_fails st in
  snd run = Raise (ExternalError "manifest unknown")
  /\ log (fst run)
     = [Pull "registry.example.com/app/service:v1";
        Echo (PImage "sha256:registry.example.com/app/service:v1");
        Get "registry.example.com/app/service:v1";
        Tag "sha256:registry.example.com/app/service:v1"
          "myregistry.io/app/service:v1" "latest";
        banner;
        Pull "registry.example.com/db:2"].
Proof.
  cbn zeta.
  rewrite (copy_images_stops_at_first_failure Scenario.second_pull_fails
             (Scenario.start
                (Scenario.generic_job ["app/service:v1"; "db:2"; "cache:7"]))
             (fst (copy_loop Scenario.second_pull_fails ["app/service:v1"]
                     (Scenario.start
                        (Scenario.generic_job
                           ["app/service:v1"; "db:2"; "cache:7"]))))
             (fst (copy_image Scenario.second_pull_fails "db:2"
                     (fst (copy_loop Scenario.second_pull_fails
                             ["app/service:v1"]
                             (Scenario.start
                                (Scenario.generic_job
                                   ["app/service:v1"; "db:2"; "cache:7"]))))))
             ["app/service:v1"] ["cache:7"] "db:2"
             (ExternalError "manifest unknown") eq_refl eq_refl eq_refl).
  split; reflexivity.
Defined.

Lemma push_image_incomplete_RunsB (w : world) (image_repo tg : string)
    (o : obj) :
  incomplete_credentials o ->
  RunsB incomplete_credentials no_transfer_out
    (push_image w image_repo tg (cr_url o) (cr_username o) (cr_password o)).
Proof.
  intros Ho st H. exists [banner].
  assert (Hrun : push_image w image_repo tg (cr_url o) (cr_username o)
                   (cr_password o) st
                 = ({| self := self st; log := (log st ++ [banner])%list |},
                    Ok tt)).
  { unfold push_image, banner. run. unfold incomplete_credentials in Ho.
    destruct (cr_url o) as [r|], (cr_username o) as [u|],
      (cr_password o) as [p|]; try reflexivity.
    destruct Ho as [Ho|[Ho|Ho]]; discriminate. }
  rewrite Hrun. cbn. repeat split; auto.
Qed.

(** X16.  Without a complete set of destination credentials (registry URL,
    username or password unset) a run of [copy_images] never logs in to a
    registry and never pushes an image, whatever the image list and the
    answers of the runtime: images are only pulled and tagged. *)
Theorem copy_images_without_credentials_never_pushes
    (w : world) (st : state) :
  incomplete_credentials (self st) ->
  exists evs,
    log (fst (copy_images w st)) = (log st ++ evs)%list
    /\ existsb is_login evs = false
    /\ existsb is_push evs = false.
Proof.
  intros Hincomplete.
  assert (HR : RunsB incomplete_credentials no_transfer_out (copy_images w)).
  { unfold copy_images. apply RunsB_this. intros o _.
    apply copy_loop_RunsB. intros image_name.
    apply copy_image_RunsB; try reflexivity.
    - intros v o' Ho. exact Ho.
    - intros repo tg o' Ho. apply push_image_incomplete_RunsB. exact Ho. }
  destruct (HR st Hincomplete) as [evs [Hlog [Hall _]]].
  exists evs. split; [exact Hlog|].
  clear Hlog. induction Hall as [|e evs He _ [IH1 IH2]]; [split; reflexivity|].
  cbn [existsb]. rewrite IH1, IH2. unfold no_transfer_out in He.
  apply negb_true_iff, orb_false_iff in He as [-> ->]. split; reflexivity.
Qed.

Lemma copy_images_without_credentials_never_pushes_witness :
  exists evs,
    log (fst (copy_images Scenario.calm
                (Scenario.start (Scenario.generic_job ["app/service:v1"]))))
    = ([] ++ evs)%list
    /\ existsb is_login evs = false
    /\ existsb is_push evs = false.
Proof.
  apply (copy_images_without_credentials_never_pushes Scenario.calm
           (Scenario.start (Scenario.generic_job ["app/service:v1"]))).
  left. reflexivity.
Defined.

(** X17.  For a valid source URL and a cloud kind that is neither aws nor
    azure (unset, or any other string) the constructor, once the runtime
    client has been created, returns normally after printing the image list;
    it consults no credential provider and leaves the destination
    credentials and the AWS keys unset.  A run of [copy_images] on the
    object it builds therefore pushes nothing. *)
Theorem init_without_cloud
    (w : world) (from_url to_url : string) (images : list string)
    (region : string) (cloud_kind : option string) (verbose : bool)
    (history : list event) :
  docker_from_env w history = Ok tt ->
  validators_url w from_url = true ->
  cloud_kind <> Some "aws" ->
  cloud_kind <> Some "azure" ->
  let made := __init__ w from_url to_url images region cloud_kind verbose
                history in
  made
  = ({| self := set_from_registry
                  (Some (PyStr.replace "https://" "" from_url))
                  (fresh to_url images region cloud_kind verbose);
        log := (history ++ [FromEnv; Echo (PImages images)])%list |},
     Ok tt)
  /\ credentials (self (fst made)) = (None, None, None)
  /\ exists evs,
      log (fst (copy_images w (fst made))) = (log (fst made) ++ evs)%list
      /\ existsb is_push evs = false.
Proof.
  intros Hclient Hvalid Haws Hazure. cbn zeta.
  rewrite (init_valid_unfold _ _ _ _ _ _ _ _ Hclient Hvalid).
  assert (Hkind : cloud_is "aws" (fresh to_url images region cloud_kind verbose)
                  = false
                  /\ cloud_is "azure"
                       (fresh to_url images region cloud_kind verbose)
                     = false).
  { unfold cloud_is. cbn [cloud fresh].
    destruct cloud_kind as [kind|]; [|split; reflexivity].
    destruct (String.eqb_spec kind "aws") as [->|_]; [congruence|].
    destruct (String.eqb_spec kind "azure") as [->|_]; [congruence|].
    split; reflexivity. }
  destruct Hkind as [-> ->]. cbn [ret fst].
  split; [reflexivity|]. split; [reflexivity|].
  match goal with
  | |- context [copy_images w ?s] =>
      destruct (copy_images_without_credentials_never_pushes w s)
        as [evs [Hlog [_ Hpush]]]; [left; reflexivity|]
  end.
  exists evs. split; assumption.
Qed.

Lemma init_without_cloud_witness :
  let made := __init__ Scenario.calm "https://registry.example.com"
                "myregistry.io" ["app/service:v1"] "eu-central-1" None false
                [] in
  snd made = Ok tt
  /\ credentials (self (fst made)) = (None, None, None)
  /\ from_registry (self (fst made)) = Some "registry.example.com".
Proof.
  cbn zeta.
  destruct (init_without_cloud Scenario.calm "https://registry.example.com"
              "myregistry.io" ["app/service:v1"] "eu-central-1" None false []
              eq_refl eq_refl) as [Hmade [Hcred _]]; try discriminate.
  split; [now rewrite Hmade|]. split; [exact Hcred|]. now rewrite Hmade.
Defined.

(** X22.  When no runtime client can be created ([docker.from_env()]
    raises), the constructor raises that exception at once: the URL is not
    checked, nothing is printed and no credential provider is consulted,
    whatever the arguments. *)
Theorem init_without_runtime
    (w : world) (from_url to_url : string) (images : list string)
    (region : string) (cloud_kind : option string) (verbose : bool)
    (history : list event) (e : exn) :
  docker_from_env w history = Raise e ->
  let made := __init__ w from_url to_url images region cloud_kind verbose
                history in
  snd made = Raise e
  /\ log (fst made) = (history ++ [FromEnv])%list.
Proof.
  intros Hclient. cbn zeta. unfold __init__.
  erewrite bind_raise
    by (unfold external; cbn [self log]; rewrite Hclient; reflexivity).
  split; reflexivity.
Qed.

Lemma init_without_runtime_witness :
  let made := __init__ Scenario.no_runtime "https://registry.example.com"
                "myregistry.io" ["app/service:v1"] "eu-central-1" (Some "aws")
                false [] in
  snd made = Raise (ExternalError "DockerException")
  /\ log (fst made) = [FromEnv].
Proof.
  apply (init_without_runtime Scenario.no_runtime
           "https://registry.example.com" "myregistry.io" ["app/service:v1"]
           "eu-central-1" (Some "aws") false []
           (ExternalError "DockerException")).
  reflexivity.
Defined.

(** *** Order of the fetches *)

Lemma no_pull_filter (evs : list event) :
  Forall (fun e => negb (is_pull e) = true) evs -> filter is_pull evs = [].
Proof.
  induction 1 as [|e evs He _ IH]; [reflexivity|].
  cbn [filter]. apply negb_true_iff in He. now rewrite He.
Qed.

(** The loop body fetches its image first and fetches nothing else. *)
Lemma copy_image_one_pull (w : world) (image_name r : string) (st : state) :
  from_registry (self st) = Some r ->
  exists tail,
    log (fst (copy_image w image_name st))
    = (log st ++ Pull (r ++ "/" ++ image_name) :: tail)%list
    /\ filter is_pull tail = []
    /\ from_registry (self (fst (copy_image w image_name st))) = Some r.
Proof.
  intros Hfrom. unfold copy_image.
  assert (Hreg : get_from_registry st = (st, Ok r)).
  { unfold get_from_registry. run. rewrite Hfrom. reflexivity. }
  rewrite (bind_ok _ _ _ _ _ Hreg).
  match goal with
  | |- context [bind (pull_image w r image_name None None) ?k st] =>
      set (K := k)
  end.
  assert (HK : RunsB (fun o => from_registry o = Some r)
                 (fun e => negb (is_pull e)) (K tt)).
  { apply (copy_image_rest_RunsB w image_name); try reflexivity.
    - intros v o Ho. exact Ho.
    - intros repo tg o _. apply push_image_RunsB; reflexivity. }
  clearbody K.
  unfold pull_image. cbn [is_None andb negb].
  unfold bind, echo, external.
  destruct (images_pull w (log st) (r ++ "/" ++ image_name)) as [out|e];
    cbv beta iota.
  - match goal with
    | |- context [K tt ?s] =>
        destruct (HK s Hfrom) as [evs [Hlog [Hall Hinv]]]
    end.
    exists (Echo (PImage out) :: evs).
    split; [rewrite Hlog; cbn [log self]; rewrite <- !app_assoc; reflexivity|].
    split; [|exact Hinv]. cbn [filter is_pull]. now apply no_pull_filter.
  - exists []. cbn. auto.
Qed.

(** X18.  [copy_images] fetches the images from the stored source registry
    in the order of the image list, each at most once and as
    [from_registry/name]: the fetches of a run are those of a prefix of the
    list, and of the whole list when the run returns normally. *)
Theorem copy_images_pulls_in_order (w : world) (st : state) (r : string) :
  from_registry (self st) = Some r ->
  exists evs k,
    log (fst (copy_images w st)) = (log st ++ evs)%list
    /\ filter is_pull evs
       = List.map (fun image_name => Pull (r ++ "/" ++ image_name))
           (firstn k (images_to_replicate (self st)))
    /\ (snd (copy_images w st) = Ok tt ->
        k = List.length (images_to_replicate (self st))).
Proof.
  change (copy_images w st)
    with (copy_loop w (images_to_replicate (self st)) st).
  generalize (images_to_replicate (self st)) as images. intros images.
  revert st. induction images as [|image_name rest IH]; intros st Hfrom.
  - exists [], 0. cbn. rewrite app_nil_r. auto.
  - cbn [copy_loop]. unfold bind.
    destruct (copy_image_one_pull w image_name r st Hfrom)
      as [tail [Hlog [Hnone Hfrom1]]].
    destruct (copy_image w image_name st) as [st1 [[]|e]];
      cbn [fst snd] in *.
    + destruct (IH st1 Hfrom1) as [evs [k [Hlog' [Hpulls Hall]]]].
      exists ((Pull (r ++ "/" ++ image_name) :: tail) ++ evs)%list, (S k).
      rewrite Hlog', Hlog, <- app_assoc. split; [reflexivity|].
      split.
      * rewrite filter_app. cbn [filter is_pull firstn List.map app].
        now rewrite Hnone, Hpulls.
      * intros Hok. cbn [List.length]. f_equal. exact (Hall Hok).
    + exists (Pull (r ++ "/" ++ image_name) :: tail), 1.
      split; [exact Hlog|]. split; [|discriminate].
      cbn [filter is_pull firstn List.map]. now rewrite Hnone.
Qed.

Lemma copy_images_pulls_in_order_witness :
  exists evs k,
    log (fst (copy_images Scenario.calm
                (Scenario.start (Scenario.generic_job ["app/service:v1"; "db:2"]))))
    = ([] ++ evs)%list
    /\ filter is_pull evs
       = List.map (fun image_name => Pull ("registry.example.com" ++ "/" ++ image_name))
           (firstn k ["app/service:v1"; "db:2"])
    /\ (snd (copy_images Scenario.calm
               (Scenario.start
                  (Scenario.generic_job ["app/service:v1"; "db:2"]))) = Ok tt ->
        k = 2).
Proof.
  apply (copy_images_pulls_in_order Scenario.calm
           (Scenario.start (Scenario.generic_job ["app/service:v1"; "db:2"]))
           "registry.example.com").
  reflexivity.
Defined.

(** *** Derived references *)

Lemma map_hyphenate_clean (s : string) :
  forallb_string
    (fun c => negb (Ascii.eqb c "/" || Ascii.eqb c ":"))
    (PyStr.map hyphenate s) = true
  /\ String.length (PyStr.map hyphenate s) = String.length s.
Proof.
  induction s as [|c s [IH1 IH2]]; [split; reflexivity|].
  cbn [PyStr.map forallb_string String.length]. rewrite IH1, IH2.
  split; [|reflexivity]. rewrite andb_true_r. unfold hyphenate.
  destruct (Ascii.eqb c "/" || Ascii.eqb c ":")%bool eqn:Hc.
  - reflexivity.
  - rewrite Hc. reflexivity.
Qed.

Lemma map_append (f : ascii -> ascii) (a b : string) :
  PyStr.map f (a ++ b) = PyStr.map f a ++ PyStr.map f b.
Proof. induction a as [|c a IH]; cbn; congruence. Qed.

Lemma append_cancel (a x y : string) : a ++ x = a ++ y -> x = y.
Proof.
  induction a as [|c a IH]; cbn; [auto|]. intros [= H]. exact (IH H).
Qed.

(** X19.  On AWS the derived reference has the destination registry as
    repository and a tag of the same length as the image name that contains
    neither a slash nor a colon. *)
Theorem aws_reference_has_clean_tag (o : obj) (registry_new image_name : string) :
  cloud o = Some "aws" ->
  let reference := derived_reference o registry_new image_name in
  repository reference = registry_new
  /\ forallb_string (fun c => negb (Ascii.eqb c "/" || Ascii.eqb c ":"))
       (tag reference) = true
  /\ String.length (tag reference) = String.length image_name.
Proof.
  intros Haws. cbn zeta. unfold derived_reference.
  apply cloud_is_aws_iff in Haws. rewrite Haws. cbn [repository tag].
  rewrite aws_tag_is_hyphenated. split; [reflexivity|].
  apply map_hyphenate_clean.
Qed.

Lemma aws_reference_has_clean_tag_witness :
  tag (derived_reference (Scenario.aws_job []) "registry.aws/cek"
         "library/nginx:1.25")
  = "library-nginx-1.25"
  /\ String.length
       (tag (derived_reference (Scenario.aws_job []) "registry.aws/cek"
               "library/nginx:1.25"))
     = String.length "library/nginx:1.25".
Proof.
  split; [reflexivity|].
  apply (aws_reference_has_clean_tag (Scenario.aws_job []) "registry.aws/cek"
           "library/nginx:1.25" eq_refl).
Defined.

(** X20.  On AWS the derived reference does not identify the image: two
    names that differ only in a slash against a colon get the same
    repository and tag, so the later image replaces the earlier one.  In the
    generic branch different names always get different references. *)
Theorem derived_reference_collisions
    (o : obj) (registry_new : string) :
  (cloud o = Some "aws" ->
   forall a b,
     derived_reference o registry_new (a ++ "/" ++ b)
     = derived_reference o registry_new (a ++ ":" ++ b))
  /\ (cloud o <> Some "aws" ->
      forall name1 name2,
        derived_reference o registry_new name1
        = derived_reference o registry_new name2 ->
        name1 = name2).
Proof.
  unfold derived_reference. split.
  - intros Haws a b. apply cloud_is_aws_iff in Haws. rewrite Haws.
    rewrite !aws_tag_is_hyphenated, !map_append. reflexivity.
  - intros Hother name1 name2.
    destruct (cloud_is "aws" o) eqn:Haws.
    { apply cloud_is_aws_iff in Haws. contradiction. }
    intros [= H]. apply append_cancel in H. now injection H.
Qed.

Lemma derived_reference_collisions_witness :
  derived_reference (Scenario.aws_job []) "registry.aws/cek" ("nginx" ++ "/" ++ "1.25")
  = derived_reference (Scenario.aws_job []) "registry.aws/cek" ("nginx" ++ ":" ++ "1.25").
Proof.
  apply (proj1 (derived_reference_collisions (Scenario.aws_job [])
                  "registry.aws/cek") eq_refl).
Defined.

(** X21.  The three operations of the registry client never change the
    object: whatever the arguments and the answers of the runtime, [self] is
    the same after [pull_image], [tag_image] and [push_image], whether they
    return or raise. *)
Theorem registry_client_leaves_object (w : world) (st : state) :
  (forall registry_url image_name username password,
      self (fst (pull_image w registry_url image_name username password st))
      = self st)
  /\ (forall image_name registry_old registry_new,
      self (fst (tag_image w image_name registry_old registry_new st))
      = self st)
  /\ (forall image_repo tg registry username password,
      self (fst (push_image w image_repo tg registry username password st))
      = self st).
Proof.
  split; [|split]; intros.
  - apply pull_image_self.
  - apply tag_image_self.
  - apply push_image_self.
Qed.

(** *** Credentials at every push *)

Ltac push_leaf :=
  eexists; eexists;
  split; [rewrite <- ?app_assoc; reflexivity|];
  cbn; split; [reflexivity | intros; solve [reflexivity | discriminate]].

(** The push-related events of the loop body are, in this order, those that
    the push of its image must show, all of them when the body returns. *)
Lemma copy_image_push_events (w : world) (image_name : string) (st : state) :
  exists evs rest,
    log (fst (copy_image w image_name st)) = (log st ++ evs)%list
    /\ push_events (self st) image_name
       = (filter push_related evs ++ rest)%list
    /\ (snd (copy_image w image_name st) = Ok tt -> rest = []).
Proof.
  unfold copy_image, get_from_registry, pull_image, tag_image, push_image,
    subscript, push_events, derived_reference.
  run.
  destruct (from_registry (self st)) as [r|] eqn:Hfrom; run.
  2:{ exists [], (push_events (self st) image_name). rewrite app_nil_r.
      split; [reflexivity|]. split; [reflexivity|discriminate]. }
  destruct (images_pull w (log st) _) as [out|e]; run; [|push_leaf].
  rewrite Hfrom. run.
  match goal with
  | |- context [images_get w ?h ?x] => destruct (images_get w h x) as [img|e]
  end; run; [|push_leaf].
  destruct (cloud_is "aws" (self st)); run;
    (match goal with
     | |- context [image_tag w ?h ?i ?x ?y] =>
         destruct (image_tag w h i x y) as [[|]|e]
     end; run; [|push_leaf|push_leaf]);
    (destruct (cr_url (self st)) as [url|], (cr_username (self st)) as [u|],
       (cr_password (self st)) as [p|]; run; try push_leaf);
    (match goal with
     | |- context [docker_login w ?h ?a ?b ?c] =>
         destruct (docker_login w h a b c) as [[]|e]
     end; run; [|push_leaf]);
    (match goal with
     | |- context [images_push w ?h ?a ?b ?c] =>
         destruct (images_push w h a b c) as [push_log|e]
     end; run; [|push_leaf]);
    destruct (show_log (self st)); run; push_leaf.
Qed.

Lemma copy_loop_push_events (w : world) (images : list string) (st : state) :
  exists evs rest,
    log (fst (copy_loop w images st)) = (log st ++ evs)%list
    /\ flat_map (push_events (self st)) images
       = (filter push_related evs ++ rest)%list
    /\ (snd (copy_loop w images st) = Ok tt -> rest = []).
Proof.
  revert st. induction images as [|image_name images IH]; intros st.
  - exists [], []. cbn. rewrite app_nil_r. auto.
  - cbn [copy_loop flat_map]. unfold bind.
    destruct (copy_image_push_events w image_name st)
      as [evs1 [rest1 [Hlog1 [Hpush1 Hok1]]]].
    pose proof (copy_image_Ok w image_name st) as Hself.
    destruct (copy_image w image_name st) as [st1 [[]|e]];
      cbn [fst snd] in *.
    + specialize (Hself st1 eq_refl). rewrite (Hok1 eq_refl) in Hpush1.
      rewrite app_nil_r in Hpush1.
      destruct (IH st1) as [evs2 [rest2 [Hlog2 [Hpush2 Hok2]]]].
      exists (evs1 ++ evs2)%list, rest2.
      rewrite Hlog2, Hlog1, app_assoc. split; [reflexivity|].
      split; [|exact Hok2].
      rewrite filter_app, <- app_assoc, <- Hpush2, Hpush1, Hself.
      reflexivity.
    + exists evs1, (rest1 ++ flat_map (push_events (self st)) images)%list.
      split; [exact Hlog1|]. split; [|discriminate].
      rewrite Hpush1, app_assoc. reflexivity.
Qed.

(** C6, as the code has it.  In every run of [copy_images], over any number
    of images, the credentials set at initialisation are the ones each push
    is made with: the push-related events of the run (the entry line of
    [push_image], its login, its push) are, image after image in list order,
    the entry line followed, when the three credentials are there, by a
    login with the username, password and registry URL the object held at
    the start and the push of the image's derived reference with that
    username and password; all of them when the run returns, a prefix when
    it raises.  The three fields are the same at the end, and no credential
    provider is consulted during the run.  There is one registry login per
    image pushed. *)
Theorem copy_images_passes_credentials_to_every_push
    (w : world) (st : state) :
  exists evs rest,
    log (fst (copy_images w st)) = (log st ++ evs)%list
    /\ flat_map (push_events (self st)) (images_to_replicate (self st))
       = (filter push_related evs ++ rest)%list
    /\ (snd (copy_images w st) = Ok tt -> rest = [])
    /\ Forall (uses_credentials (self st)) evs
    /\ existsb is_credential_setup evs = false
    /\ credentials (self (fst (copy_images w st))) = credentials (self st).
Proof.
  destruct (copy_images_keeps_credentials w st)
    as [evs [Hlog [Hall [Hsetup Hcred]]]].
  change (copy_images w st)
    with (copy_loop w (images_to_replicate (self st)) st) in *.
  destruct (copy_loop_push_events w (images_to_replicate (self st)) st)
    as [evs' [rest [Hlog' [Hpush Hok]]]].
  assert (evs' = evs) as ->.
  { rewrite Hlog in Hlog'. now apply app_inv_head in Hlog'. }
  exists evs, rest. repeat split; assumption.
Qed.

Lemma copy_images_passes_credentials_to_every_push_witness :
  let st := Scenario.start (Scenario.aws_job ["app/service:v1"; "db:2"]) in
  let registry := "123456789012.dkr.ecr.eu-central-1.amazonaws.com/cek" in
  filter push_related (log (fst (copy_images Scenario.calm st)))
  = [banner; Login (Some "AWS") (Some "token") registry;
     Push registry "app-service-v1" (Some ("AWS", "token"));
     banner; Login (Some "AWS") (Some "token") registry;
     Push registry "db-2" (Some ("AWS", "token"))].
Proof.
  cbn zeta.
  destruct (copy_images_passes_credentials_to_every_push Scenario.calm
              (Scenario.start (Scenario.aws_job ["app/service:v1"; "db:2"])))
    as [evs [rest [Hlog [Hpush [Hok _]]]]].
  rewrite (Hok eq_refl), app_nil_r in Hpush.
  rewrite Hlog. cbn [Scenario.start log app]. rewrite <- Hpush. reflexivity.
Defined.

(** C6 as stated fails in its last part: the registry login is repeated for
    every image.  A run over two images logs in twice, with the same
    credentials. *)
Lemma copy_images_logs_in_for_every_image :
  filter is_login
    (log (fst (copy_images Scenario.calm
                 (Scenario.start
                    (Scenario.aws_job ["app/service:v1"; "db:2"])))))
  = [Login (Some "AWS") (Some "token")
       "123456789012.dkr.ecr.eu-central-1.amazonaws.com/cek";
     Login (Some "AWS") (Some "token")
       "123456789012.dkr.ecr.eu-central-1.amazonaws.com/cek"].
Proof. reflexivity. Qed.
